(** * Cheesy Arena: the scoring and referee display handlers (displays.go)

    A shallow embedding of the command loops of
    [ScoringDisplayWebsocketHandler] and [RefereeDisplayWebsocketHandler].
    One iteration of a loop (read a message, switch on its type, write the
    answer) is a function from the message and the shared state to the new
    state and the frame written on the websocket. An iteration is taken as
    one step: the handlers hold no lock, and what two connections do to the
    same score at the same time is outside this model. *)

From Stdlib Require Import ZArith List String Ascii Bool Lia.
From Stdlib Require Import SpecFloat.
Import ListNotations.

Local Open Scope string_scope.
Local Open Scope Z_scope.

(** ** Go's [int]

    [int] is the 64-bit two's complement integer of the usual targets.
    Values are kept in [Z]; [+] and [-] wrap around. *)
Module GoInt.

Definition minInt : Z := - 2 ^ 63.
Definition maxInt : Z := 2 ^ 63 - 1.

Definition wrap (z : Z) : Z := (z - minInt) mod 2 ^ 64 + minInt.

Definition add (a b : Z) : Z := wrap (a + b).
Definition sub (a b : Z) : Z := wrap (a - b).

Definition inRange (z : Z) : Prop := minInt <= z <= maxInt.

End GoInt.

(** [float64], with the comparison [==] of IEEE 754 ([SFeqb]): a NaN differs
    from itself and the two zeros are equal. *)
Definition float64 : Type := spec_float.
Definition float64_eq (a b : float64) : bool := SFeqb a b.

(** ** Data model *)

(** Modelled from the spec: the declaration of [Cycle] is not in displays.go.
    The fields are the ones the handlers read and write. *)
Record Cycle : Type := mkCycle {
  Assists : Z;
  Truss : bool;
  Catch : bool;
  ScoredHigh : bool;
  ScoredLow : bool;
  DeadBall : bool
}.

(** [Cycle{}], the zero value. *)
Definition Cycle_zero : Cycle := mkCycle 0 false false false false false.

(** [a == b] on cycles: field by field. *)
Definition Cycle_eq (a b : Cycle) : bool :=
  (Assists a =? Assists b)%Z
  && Bool.eqb (Truss a) (Truss b)
  && Bool.eqb (Catch a) (Catch b)
  && Bool.eqb (ScoredHigh a) (ScoredHigh b)
  && Bool.eqb (ScoredLow a) (ScoredLow b)
  && Bool.eqb (DeadBall a) (DeadBall b).

(** Modelled from the spec: the declaration of [Score] is not in displays.go.
    [Cycles] is a slice; it is kept as the list of its elements. The
    snapshots on the undo stack copy the slice header, and every snapshot is
    taken and restored before the first [append] to [Cycles] (both need
    [AutoCommitted] false, and every [append] happens with it true), so no
    two live headers ever disagree about the elements. *)
Record Score : Type := mkScore {
  AutoMobilityBonuses : Z;
  AutoHighHot : Z;
  AutoHigh : Z;
  AutoLowHot : Z;
  AutoLow : Z;
  AutoClearHigh : Z;
  AutoClearLow : Z;
  AutoClearDead : Z;
  Cycles : list Cycle
}.

Definition Score_zero : Score := mkScore 0 0 0 0 0 0 0 0 [].

(** Modelled from the spec: the declaration of [Foul] is not in displays.go. *)
Record Foul : Type := mkFoul {
  TeamId : Z;
  Rule : string;
  IsTechnical : bool;
  TimeInMatchSec : float64
}.

(** [a == b] on fouls: field by field, the time with the float comparison. *)
Definition Foul_eq (a b : Foul) : bool :=
  (TeamId a =? TeamId b)%Z
  && (Rule a =? Rule b)%string
  && Bool.eqb (IsTechnical a) (IsTechnical b)
  && float64_eq (TimeInMatchSec a) (TimeInMatchSec b).

(** Modelled from the spec: the declaration of [RealtimeScore] is not in
    displays.go. *)
Record RealtimeScore : Type := mkRealtimeScore {
  CurrentScore : Score;
  CurrentCycle : Cycle;
  AutoPreloadedBalls : Z;
  AutoCommitted : bool;
  TeleopCommitted : bool;
  Fouls : list Foul;
  FoulsCommitted : bool;
  undoAutoScores : list Score;
  undoCycles : list Cycle
}.

(** Modelled from the spec: the constructor of [RealtimeScore] is not in
    displays.go; a score is "created fresh when a match is loaded", every
    counter at zero, no flag set, nothing on the stacks. *)
Definition NewRealtimeScore : RealtimeScore :=
  mkRealtimeScore Score_zero Cycle_zero 0 false false [] false [] [].

(** *** Field updates *)

Definition set_Assists (v : Z) (c : Cycle) : Cycle :=
  mkCycle v (Truss c) (Catch c) (ScoredHigh c) (ScoredLow c) (DeadBall c).
Definition set_Truss (v : bool) (c : Cycle) : Cycle :=
  mkCycle (Assists c) v (Catch c) (ScoredHigh c) (ScoredLow c) (DeadBall c).
Definition set_Catch (v : bool) (c : Cycle) : Cycle :=
  mkCycle (Assists c) (Truss c) v (ScoredHigh c) (ScoredLow c) (DeadBall c).
(** The three outcome flags are always written together. *)
Definition set_outcome (high low dead : bool) (c : Cycle) : Cycle :=
  mkCycle (Assists c) (Truss c) (Catch c) high low dead.

Definition set_AutoMobilityBonuses (v : Z) (a : Score) : Score :=
  mkScore v (AutoHighHot a) (AutoHigh a) (AutoLowHot a) (AutoLow a)
          (AutoClearHigh a) (AutoClearLow a) (AutoClearDead a) (Cycles a).
Definition set_AutoHighHot (v : Z) (a : Score) : Score :=
  mkScore (AutoMobilityBonuses a) v (AutoHigh a) (AutoLowHot a) (AutoLow a)
          (AutoClearHigh a) (AutoClearLow a) (AutoClearDead a) (Cycles a).
Definition set_AutoHigh (v : Z) (a : Score) : Score :=
  mkScore (AutoMobilityBonuses a) (AutoHighHot a) v (AutoLowHot a) (AutoLow a)
          (AutoClearHigh a) (AutoClearLow a) (AutoClearDead a) (Cycles a).
Definition set_AutoLowHot (v : Z) (a : Score) : Score :=
  mkScore (AutoMobilityBonuses a) (AutoHighHot a) (AutoHigh a) v (AutoLow a)
          (AutoClearHigh a) (AutoClearLow a) (AutoClearDead a) (Cycles a).
Definition set_AutoLow (v : Z) (a : Score) : Score :=
  mkScore (AutoMobilityBonuses a) (AutoHighHot a) (AutoHigh a) (AutoLowHot a) v
          (AutoClearHigh a) (AutoClearLow a) (AutoClearDead a) (Cycles a).
Definition set_AutoClearHigh (v : Z) (a : Score) : Score :=
  mkScore (AutoMobilityBonuses a) (AutoHighHot a) (AutoHigh a) (AutoLowHot a)
          (AutoLow a) v (AutoClearLow a) (AutoClearDead a) (Cycles a).
Definition set_AutoClearLow (v : Z) (a : Score) : Score :=
  mkScore (AutoMobilityBonuses a) (AutoHighHot a) (AutoHigh a) (AutoLowHot a)
          (AutoLow a) (AutoClearHigh a) v (AutoClearDead a) (Cycles a).
Definition set_AutoClearDead (v : Z) (a : Score) : Score :=
  mkScore (AutoMobilityBonuses a) (AutoHighHot a) (AutoHigh a) (AutoLowHot a)
          (AutoLow a) (AutoClearHigh a) (AutoClearLow a) v (Cycles a).
Definition set_Cycles (v : list Cycle) (a : Score) : Score :=
  mkScore (AutoMobilityBonuses a) (AutoHighHot a) (AutoHigh a) (AutoLowHot a)
          (AutoLow a) (AutoClearHigh a) (AutoClearLow a) (AutoClearDead a) v.

Definition set_CurrentScore (v : Score) (s : RealtimeScore) : RealtimeScore :=
  mkRealtimeScore v (CurrentCycle s) (AutoPreloadedBalls s) (AutoCommitted s)
    (TeleopCommitted s) (Fouls s) (FoulsCommitted s) (undoAutoScores s) (undoCycles s).
Definition set_CurrentCycle (v : Cycle) (s : RealtimeScore) : RealtimeScore :=
  mkRealtimeScore (CurrentScore s) v (AutoPreloadedBalls s) (AutoCommitted s)
    (TeleopCommitted s) (Fouls s) (FoulsCommitted s) (undoAutoScores s) (undoCycles s).
Definition set_AutoPreloadedBalls (v : Z) (s : RealtimeScore) : RealtimeScore :=
  mkRealtimeScore (CurrentScore s) (CurrentCycle s) v (AutoCommitted s)
    (TeleopCommitted s) (Fouls s) (FoulsCommitted s) (undoAutoScores s) (undoCycles s).
Definition set_AutoCommitted (v : bool) (s : RealtimeScore) : RealtimeScore :=
  mkRealtimeScore (CurrentScore s) (CurrentCycle s) (AutoPreloadedBalls s) v
    (TeleopCommitted s) (Fouls s) (FoulsCommitted s) (undoAutoScores s) (undoCycles s).
Definition set_TeleopCommitted (v : bool) (s : RealtimeScore) : RealtimeScore :=
  mkRealtimeScore (CurrentScore s) (CurrentCycle s) (AutoPreloadedBalls s)
    (AutoCommitted s) v (Fouls s) (FoulsCommitted s) (undoAutoScores s) (undoCycles s).
Definition set_Fouls (v : list Foul) (s : RealtimeScore) : RealtimeScore :=
  mkRealtimeScore (CurrentScore s) (CurrentCycle s) (AutoPreloadedBalls s)
    (AutoCommitted s) (TeleopCommitted s) v (FoulsCommitted s) (undoAutoScores s)
    (undoCycles s).
Definition set_FoulsCommitted (v : bool) (s : RealtimeScore) : RealtimeScore :=
  mkRealtimeScore (CurrentScore s) (CurrentCycle s) (AutoPreloadedBalls s)
    (AutoCommitted s) (TeleopCommitted s) (Fouls s) v (undoAutoScores s) (undoCycles s).
Definition set_undoAutoScores (v : list Score) (s : RealtimeScore) : RealtimeScore :=
  mkRealtimeScore (CurrentScore s) (CurrentCycle s) (AutoPreloadedBalls s)
    (AutoCommitted s) (TeleopCommitted s) (Fouls s) (FoulsCommitted s) v (undoCycles s).
Definition set_undoCycles (v : list Cycle) (s : RealtimeScore) : RealtimeScore :=
  mkRealtimeScore (CurrentScore s) (CurrentCycle s) (AutoPreloadedBalls s)
    (AutoCommitted s) (TeleopCommitted s) (Fouls s) (FoulsCommitted s)
    (undoAutoScores s) v.

(** ** Messages *)

(** The payload of a message as the JSON decoder hands it over
    ([interface{}]): nil, a bool, a number, a string, an array or an object. *)
#[local] Set Warnings "-register-all".
Inductive Data : Type :=
| DNil
| DBool (b : bool)
| DNumber (f : float64)
| DString (s : string)
| DArray (l : list Data)
| DObject (m : list (string * Data)).

(** [v, ok := data.(string)] *)
Definition asString (data : Data) : option string :=
  match data with
  | DString s => Some s
  | _ => None
  end.

(** ** strconv.Atoi

    The standard library's decimal parser: an optional sign, then digits. A
    syntax error returns 0; a value out of range returns the nearest [int]
    together with a range error. *)
Module strconv.

Inductive NumError : Type := ErrSyntax | ErrRange.

Definition maxUint64 : Z := 2 ^ 64 - 1.
Definition cutoff : Z := maxUint64 / 10 + 1.

Definition isDigit (c : ascii) : bool :=
  let d := Z.of_nat (nat_of_ascii c) in (48 <=? d) && (d <=? 57).

(** The digit loop of [ParseUint] in base 10 with 64 bits. *)
Fixpoint ParseUint_loop (s : string) (n : Z) : Z * option NumError :=
  match s with
  | EmptyString => (n, None)
  | String c rest =>
      if isDigit c then
        let v := Z.of_nat (nat_of_ascii c) - 48 in
        if cutoff <=? n then (maxUint64, Some ErrRange)
        else
          let n1 := n * 10 + v in
          if maxUint64 <? n1 then (maxUint64, Some ErrRange)
          else ParseUint_loop rest n1
      else (0, Some ErrSyntax)
  end.

Definition ParseUint (s : string) : Z * option NumError :=
  match s with
  | EmptyString => (0, Some ErrSyntax)
  | _ => ParseUint_loop s 0
  end.

Definition ParseInt (s : string) : Z * option NumError :=
  match s with
  | EmptyString => (0, Some ErrSyntax)
  | String c rest =>
      let neg := Ascii.eqb c "-" in
      let digits := if Ascii.eqb c "+" || neg then rest else s in
      match ParseUint digits with
      | (_, Some ErrSyntax) => (0, Some ErrSyntax)
      | (un, _) =>
          let lim := 2 ^ 63 in
          if negb neg && (lim <=? un) then (lim - 1, Some ErrRange)
          else if neg && (lim <? un) then (- lim, Some ErrRange)
          else (if neg then - un else un, None)
      end
  end.

Definition Atoi (s : string) : Z * option NumError := ParseInt s.

End strconv.

(** ** The scoring display *)

(** What one iteration of the command loop writes on the websocket. *)
Inductive ScoringReply : Type :=
| WriteScore (score : RealtimeScore)
| WriteError (message : string).

(** [fmt.Sprintf("Failed to parse '%s' message.", messageType)] *)
Definition parseFailure (messageType : string) : string :=
  ("Failed to parse '" ++ messageType ++ "' message.")%string.

(** [fmt.Sprintf("Invalid message type '%s'.", messageType)] *)
Definition invalidType (messageType : string) : string :=
  ("Invalid message type '" ++ messageType ++ "'.")%string.

(** [append(stack, x)] *)
Definition push {A : Type} (stack : list A) (x : A) : list A := stack ++ [x].

(** [score.undoAutoScores = append(score.undoAutoScores, score.CurrentScore)] *)
Definition snapshotAuto (s : RealtimeScore) : RealtimeScore :=
  set_undoAutoScores (push (undoAutoScores s) (CurrentScore s)) s.

(** [score.undoCycles = append(score.undoCycles, score.CurrentCycle)] *)
Definition snapshotCycle (s : RealtimeScore) : RealtimeScore :=
  set_undoCycles (push (undoCycles s) (CurrentCycle s)) s.

(** The test of the leftover-ball check, in the order of the source. *)
Definition leftoverBalls (s : RealtimeScore) : Z :=
  let a := CurrentScore s in
  GoInt.sub (GoInt.sub (GoInt.sub (GoInt.sub (GoInt.sub (GoInt.sub (GoInt.sub
    (AutoPreloadedBalls s) (AutoHighHot a)) (AutoHigh a)) (AutoLowHot a))
    (AutoLow a)) (AutoClearHigh a)) (AutoClearLow a)) (AutoClearDead a).

(** [ScoredHigh || ScoredLow || DeadBall] *)
Definition hasOutcome (c : Cycle) : bool :=
  ScoredHigh c || ScoredLow c || DeadBall c.

(** The body of the [switch], one [case] per definition. Each returns the
    score after the case; the cases that [continue] are in
    [ScoringDisplayWebsocketHandler_step]. *)

Definition case_preload (messageType : string) (data : Data) (s : RealtimeScore)
  : RealtimeScore * ScoringReply :=
  if negb (AutoCommitted s) then
    match asString data with
    | None => (s, WriteError (parseFailure messageType))
    | Some preloadedBallsStr =>
        let '(preloadedBalls, err) := strconv.Atoi preloadedBallsStr in
        let s' := set_AutoPreloadedBalls preloadedBalls s in
        match err with
        | Some _ => (s', WriteError (parseFailure messageType))
        | None => (s', WriteScore s')
        end
    end
  else (s, WriteScore s).

Definition case_mobility (s : RealtimeScore) : RealtimeScore :=
  if negb (AutoCommitted s) then
    let s1 := snapshotAuto s in
    set_CurrentScore
      (set_AutoMobilityBonuses (GoInt.add (AutoMobilityBonuses (CurrentScore s1)) 1)
         (CurrentScore s1)) s1
  else s.

Definition case_scoredHighHot (s : RealtimeScore) : RealtimeScore :=
  if negb (AutoCommitted s) then
    let s1 := snapshotAuto s in
    set_CurrentScore
      (set_AutoHighHot (GoInt.add (AutoHighHot (CurrentScore s1)) 1) (CurrentScore s1)) s1
  else s.

Definition case_scoredHigh (s : RealtimeScore) : RealtimeScore :=
  if negb (AutoCommitted s) then
    let s1 := snapshotAuto s in
    set_CurrentScore
      (set_AutoHigh (GoInt.add (AutoHigh (CurrentScore s1)) 1) (CurrentScore s1)) s1
  else if negb (TeleopCommitted s) && negb (ScoredHigh (CurrentCycle s)) then
    let s1 := snapshotCycle s in
    set_CurrentCycle (set_outcome true false false (CurrentCycle s1)) s1
  else s.

Definition case_scoredLowHot (s : RealtimeScore) : RealtimeScore :=
  if negb (AutoCommitted s) then
    let s1 := snapshotAuto s in
    set_CurrentScore
      (set_AutoLowHot (GoInt.add (AutoLowHot (CurrentScore s1)) 1) (CurrentScore s1)) s1
  else s.

Definition case_scoredLow (s : RealtimeScore) : RealtimeScore :=
  if negb (AutoCommitted s) then
    let s1 := snapshotAuto s in
    set_CurrentScore
      (set_AutoLow (GoInt.add (AutoLow (CurrentScore s1)) 1) (CurrentScore s1)) s1
  else if negb (TeleopCommitted s) && negb (ScoredLow (CurrentCycle s)) then
    let s1 := snapshotCycle s in
    set_CurrentCycle (set_outcome false true false (CurrentCycle s1)) s1
  else s.

Definition case_assist (s : RealtimeScore) : RealtimeScore :=
  if negb (TeleopCommitted s) && (Assists (CurrentCycle s) <? 3) then
    let s1 := snapshotCycle s in
    set_CurrentCycle
      (set_Assists (GoInt.add (Assists (CurrentCycle s1)) 1) (CurrentCycle s1)) s1
  else s.

Definition case_truss (s : RealtimeScore) : RealtimeScore :=
  if negb (TeleopCommitted s) && negb (Truss (CurrentCycle s)) then
    let s1 := snapshotCycle s in
    set_CurrentCycle (set_Truss true (CurrentCycle s1)) s1
  else s.

Definition case_catch (s : RealtimeScore) : RealtimeScore :=
  if negb (TeleopCommitted s) && negb (Catch (CurrentCycle s))
     && Truss (CurrentCycle s) then
    let s1 := snapshotCycle s in
    set_CurrentCycle (set_Catch true (CurrentCycle s1)) s1
  else s.

Definition case_deadBall (s : RealtimeScore) : RealtimeScore :=
  if negb (TeleopCommitted s) && negb (DeadBall (CurrentCycle s)) then
    let s1 := snapshotCycle s in
    set_CurrentCycle (set_outcome false false true (CurrentCycle s1)) s1
  else s.

Definition case_commit (s : RealtimeScore) : RealtimeScore :=
  if negb (AutoCommitted s) then set_AutoCommitted true s
  else if negb (TeleopCommitted s) then
    if hasOutcome (CurrentCycle s) then
      let a := CurrentScore s in
      let s1 :=
        (* Check whether this is a leftover ball from autonomous. *)
        if 0 <? leftoverBalls s then
          if ScoredHigh (CurrentCycle s) then
            set_CurrentScore (set_AutoClearHigh (GoInt.add (AutoClearHigh a) 1) a) s
          else if ScoredLow (CurrentCycle s) then
            set_CurrentScore (set_AutoClearLow (GoInt.add (AutoClearLow a) 1) a) s
          else
            set_CurrentScore (set_AutoClearDead (GoInt.add (AutoClearDead a) 1) a) s
        else
          set_CurrentScore (set_Cycles (push (Cycles a) (CurrentCycle s)) a) s in
      set_undoCycles [] (set_CurrentCycle Cycle_zero s1)
    else s
  else s.

Definition case_commitMatch (s : RealtimeScore) : RealtimeScore :=
  let s1 := set_TeleopCommitted true (set_AutoCommitted true s) in
  if negb (Cycle_eq (CurrentCycle s1) Cycle_zero) then
    (* Commit last cycle. *)
    set_CurrentScore
      (set_Cycles (push (Cycles (CurrentScore s1)) (CurrentCycle s1)) (CurrentScore s1)) s1
  else s1.

(** [stack[len(stack)-1]] and [stack[0 : len(stack)-1]]; both are used only on
    a stack that is not empty. *)
Definition top {A : Type} (stack : list A) (d : A) : A := last stack d.
Definition pop {A : Type} (stack : list A) : list A := removelast stack.

Definition case_undo (s : RealtimeScore) : RealtimeScore :=
  if negb (AutoCommitted s) && (0 <? Z.of_nat (List.length (undoAutoScores s))) then
    set_undoAutoScores (pop (undoAutoScores s))
      (set_CurrentScore (top (undoAutoScores s) (CurrentScore s)) s)
  else if negb (TeleopCommitted s) && (0 <? Z.of_nat (List.length (undoCycles s))) then
    set_undoCycles (pop (undoCycles s))
      (set_CurrentCycle (top (undoCycles s) (CurrentCycle s)) s)
  else s.

(** After a case that does not [continue], the score is written back. *)
Definition echo (s : RealtimeScore) : RealtimeScore * ScoringReply :=
  (s, WriteScore s).

(** One iteration of the loop of [ScoringDisplayWebsocketHandler], from the
    message read to the frame written. *)
Definition ScoringDisplayWebsocketHandler_step
    (messageType : string) (data : Data) (s : RealtimeScore)
  : RealtimeScore * ScoringReply :=
  if (messageType =? "preload")%string then case_preload messageType data s
  else if (messageType =? "mobility")%string then echo (case_mobility s)
  else if (messageType =? "scoredHighHot")%string then echo (case_scoredHighHot s)
  else if (messageType =? "scoredHigh")%string then echo (case_scoredHigh s)
  else if (messageType =? "scoredLowHot")%string then echo (case_scoredLowHot s)
  else if (messageType =? "scoredLow")%string then echo (case_scoredLow s)
  else if (messageType =? "assist")%string then echo (case_assist s)
  else if (messageType =? "truss")%string then echo (case_truss s)
  else if (messageType =? "catch")%string then echo (case_catch s)
  else if (messageType =? "deadBall")%string then echo (case_deadBall s)
  else if (messageType =? "commit")%string then echo (case_commit s)
  else if (messageType =? "commitMatch")%string then echo (case_commitMatch s)
  else if (messageType =? "undo")%string then echo (case_undo s)
  else (s, WriteError (invalidType messageType)).

(** A message as read from the websocket. *)
Definition Message : Type := (string * Data)%type.

(** The score after one message, and after a sequence of them. *)
Definition scoringStep (s : RealtimeScore) (m : Message) : RealtimeScore :=
  fst (ScoringDisplayWebsocketHandler_step (fst m) (snd m) s).

Definition scoringRun (s : RealtimeScore) (ms : list Message) : RealtimeScore :=
  fold_left scoringStep ms s.

(** ** The referee display *)

(** The part of [mainArena] the referee display works on: the realtime scores
    of the two alliances. *)
Record Arena : Type := mkArena {
  redRealtimeScore : RealtimeScore;
  blueRealtimeScore : RealtimeScore
}.

Definition set_redRealtimeScore (v : RealtimeScore) (arena : Arena) : Arena :=
  mkArena v (blueRealtimeScore arena).
Definition set_blueRealtimeScore (v : RealtimeScore) (arena : Arena) : Arena :=
  mkArena (redRealtimeScore arena) v.

(** The anonymous argument structs of the two foul commands. *)
Record AddFoulArgs : Type := mkAddFoulArgs {
  add_Alliance : string;
  add_TeamId : Z;
  add_Rule : string;
  add_IsTechnical : bool
}.

Record DeleteFoulArgs : Type := mkDeleteFoulArgs {
  del_Alliance : string;
  del_TeamId : Z;
  del_Rule : string;
  del_TimeInMatchSec : float64;
  del_IsTechnical : bool
}.

Inductive RefereeReply : Type :=
| WriteReload
| RefereeError (message : string).

(** The index of the first foul that [==] the given one, as the [range] loop
    finds it before its [break]. *)
Fixpoint indexOfFoul (deleteFoul : Foul) (fouls : list Foul) : option nat :=
  match fouls with
  | [] => None
  | foul :: rest =>
      if Foul_eq foul deleteFoul then Some O
      else option_map S (indexOfFoul deleteFoul rest)
  end.

(** The loop of the deleteFoul case:
    [fouls = append(fouls[:i], fouls[i+1:]...)] at the first match. *)
Definition removeFoul (deleteFoul : Foul) (fouls : list Foul) : list Foul :=
  match indexOfFoul deleteFoul fouls with
  | Some i => firstn i fouls ++ skipn (S i) fouls
  | None => fouls
  end.

(** The two cases after a successful decode. [matchTimeSec] is the value of
    [mainArena.MatchTimeSec()] when the message is handled. *)
Definition case_addFoul (matchTimeSec : float64) (args : AddFoulArgs) (arena : Arena)
  : Arena :=
  let foul := mkFoul (add_TeamId args) (add_Rule args) (add_IsTechnical args)
                     matchTimeSec in
  (* Add the foul to the correct alliance's list. *)
  if (add_Alliance args =? "red")%string then
    set_redRealtimeScore
      (set_Fouls (push (Fouls (redRealtimeScore arena)) foul) (redRealtimeScore arena))
      arena
  else
    set_blueRealtimeScore
      (set_Fouls (push (Fouls (blueRealtimeScore arena)) foul) (blueRealtimeScore arena))
      arena.

Definition case_deleteFoul (args : DeleteFoulArgs) (arena : Arena) : Arena :=
  let deleteFoul := mkFoul (del_TeamId args) (del_Rule args) (del_IsTechnical args)
                           (del_TimeInMatchSec args) in
  (* Remove the foul from the correct alliance's list. *)
  if (del_Alliance args =? "red")%string then
    set_redRealtimeScore
      (set_Fouls (removeFoul deleteFoul (Fouls (redRealtimeScore arena)))
         (redRealtimeScore arena))
      arena
  else
    set_blueRealtimeScore
      (set_Fouls (removeFoul deleteFoul (Fouls (blueRealtimeScore arena)))
         (blueRealtimeScore arena))
      arena.

Definition case_commitFouls (arena : Arena) : Arena :=
  let arena1 :=
    set_redRealtimeScore (set_FoulsCommitted true (redRealtimeScore arena)) arena in
  set_blueRealtimeScore (set_FoulsCommitted true (blueRealtimeScore arena1)) arena1.

Section RefereeDisplay.

(** [mapstructure.Decode(data, &args)] for the two argument structs: the
    decoded struct, or the text of the error. The library is not part of
    the repository; the handler is verified for any decoder. *)
Variable decodeAddFoul : Data -> string + AddFoulArgs.
Variable decodeDeleteFoul : Data -> string + DeleteFoulArgs.

(** One iteration of the loop of [RefereeDisplayWebsocketHandler]. *)
Definition RefereeDisplayWebsocketHandler_step
    (matchTimeSec : float64) (messageType : string) (data : Data) (arena : Arena)
  : Arena * RefereeReply :=
  if (messageType =? "addFoul")%string then
    match decodeAddFoul data with
    | inl err => (arena, RefereeError err)
    | inr args => (case_addFoul matchTimeSec args arena, WriteReload)
    end
  else if (messageType =? "deleteFoul")%string then
    match decodeDeleteFoul data with
    | inl err => (arena, RefereeError err)
    | inr args => (case_deleteFoul args arena, WriteReload)
    end
  else if (messageType =? "commitMatch")%string then (case_commitFouls arena, WriteReload)
  else (arena, RefereeError (invalidType messageType)).

End RefereeDisplay.

(** * Vocabulary of the properties *)

(** ** Scoring *)

(** The payload parses: it is a string and [Atoi] accepts it. *)
Definition parsesAsInt (data : Data) : bool :=
  match asString data with
  | Some str =>
      match snd (strconv.Atoi str) with
      | None => true
      | Some _ => false
      end
  | None => false
  end.


(** The teleop cycle commands. *)
Definition isCycleCommand (messageType : string) : Prop :=
  messageType = "assist" \/ messageType = "truss" \/ messageType = "catch"
  \/ messageType = "deadBall".


Definition assistsBounded (c : Cycle) : Prop := 0 <= Assists c <= 3.

(** The bound holds of the current cycle and of every snapshot that undo can
    bring back. *)
Definition AssistsInv (s : RealtimeScore) : Prop :=
  assistsBounded (CurrentCycle s) /\ Forall assistsBounded (undoCycles s).

(** The emptiness test of commitMatch: the cycle is not [Cycle{}]. *)
Definition nonzero (c : Cycle) : Prop := Cycle_eq c Cycle_zero = false.

(** Every committed cycle is nonzero, in the score and in the autonomous
    snapshots that undo can bring back. *)
Definition CyclesInv (s : RealtimeScore) : Prop :=
  Forall nonzero (Cycles (CurrentScore s))
  /\ Forall (fun a => Forall nonzero (Cycles a)) (undoAutoScores s).

(** undo, [n] times. *)
Fixpoint undoTimes (n : nat) (s : RealtimeScore) : RealtimeScore :=
  match n with
  | O => s
  | S k => undoTimes k (fst (ScoringDisplayWebsocketHandler_step "undo" DNil s))
  end.

(** The first scenario of the specification: two balls preloaded, one scored
    high in autonomous, then a high goal in teleop. The committed ball is
    the leftover one. *)
Definition leftoverScenario (autoHigh : Z) : RealtimeScore :=
  mkRealtimeScore (set_AutoHigh autoHigh Score_zero)
    (set_outcome true false false Cycle_zero) 2 true false [] false []
    [Cycle_zero].

(** ** Fouls *)

(** No foul of the list [==] the given one. *)
Definition noMatch (deleteFoul : Foul) (fouls : list Foul) : Prop :=
  Forall (fun foul => Foul_eq foul deleteFoul = false) fouls.

(** [fouls'] is [fouls] without its first foul that [==] the given one, or
    [fouls] itself when it has none. *)
Definition firstMatchRemoved (deleteFoul : Foul) (fouls fouls' : list Foul) : Prop :=
  (noMatch deleteFoul fouls /\ fouls' = fouls)
  \/ (exists before x after,
        fouls = (before ++ x :: after)%list
        /\ noMatch deleteFoul before
        /\ Foul_eq x deleteFoul = true
        /\ fouls' = (before ++ after)%list).

(** Two scores that differ in their foul list at most. *)
Definition sameButFouls (s s' : RealtimeScore) : Prop :=
  CurrentScore s' = CurrentScore s
  /\ CurrentCycle s' = CurrentCycle s
  /\ AutoPreloadedBalls s' = AutoPreloadedBalls s
  /\ AutoCommitted s' = AutoCommitted s
  /\ TeleopCommitted s' = TeleopCommitted s
  /\ FoulsCommitted s' = FoulsCommitted s
  /\ undoAutoScores s' = undoAutoScores s
  /\ undoCycles s' = undoCycles s.

(** The foul list the alliance argument selects. *)
Definition selectedFouls (alliance : string) (arena : Arena) : list Foul :=
  if (alliance =? "red")%string then Fouls (redRealtimeScore arena)
  else Fouls (blueRealtimeScore arena).

(** *** A concrete ledger for the examples *)

(** Decoders for the examples: the decoded struct is given, or the decode
    fails. *)
Definition decodeTo {A : Type} (args : A) : Data -> string + A :=
  fun _ => inr args.
Definition decodeFails {A : Type} : Data -> string + A :=
  fun _ => inl "decode error".

(** 12.0 as a binary64. *)
Definition seconds12 : float64 := S754_finite false 6755399441055744 (-49).

Definition foulG3 : Foul := mkFoul 254 "G3" false seconds12.
Definition foulG12 : Foul := mkFoul 1114 "G12" true seconds12.

(** The blue list holds the same foul twice, around another one. *)
Definition arenaWithDuplicates : Arena :=
  mkArena (set_Fouls [foulG12] NewRealtimeScore)
          (set_Fouls [foulG12; foulG3; foulG12; foulG3] NewRealtimeScore).

Definition deleteG3 (alliance : string) : DeleteFoulArgs :=
  mkDeleteFoulArgs alliance 254 "G3" seconds12 false.

Definition addG3 (alliance : string) : AddFoulArgs :=
  mkAddFoulArgs alliance 254 "G3" false.

(** * The rest of the handlers *)

(** ** The scoring session and its alliance *)

(** [fmt.Errorf("Invalid alliance '%s'.", alliance)] *)
Definition invalidAlliance (alliance : string) : string :=
  ("Invalid alliance '" ++ alliance ++ "'.")%string.

(** The variable [score] of [ScoringDisplayWebsocketHandler]: the address of
    one of the two score fields of [mainArena]. *)
Inductive ScorePointer : Type := RedScore | BlueScore.

(** [*score] *)
Definition deref (score : ScorePointer) (arena : Arena) : RealtimeScore :=
  match score with
  | RedScore => redRealtimeScore arena
  | BlueScore => blueRealtimeScore arena
  end.

(** The arena after the score behind [score] has become [v]. *)
Definition assign (score : ScorePointer) (v : RealtimeScore) (arena : Arena) : Arena :=
  match score with
  | RedScore => set_redRealtimeScore v arena
  | BlueScore => set_blueRealtimeScore v arena
  end.

(** The head of [ScoringDisplayWebsocketHandler] (and of
    [ScoringDisplayHandler]): the alliance of the route is checked, then the
    score is chosen. The error goes to [handleWebErr] and no websocket is
    opened. *)
Definition ScoringDisplayWebsocketHandler_open (alliance : string)
  : string + ScorePointer :=
  if negb (alliance =? "red")%string && negb (alliance =? "blue")%string then
    inl (invalidAlliance alliance)
  else if (alliance =? "red")%string then inr RedScore
  else inr BlueScore.

(** One iteration of the loop of a scoring session, on the arena. *)
Definition ScoringSession_step (score : ScorePointer)
    (messageType : string) (data : Data) (arena : Arena) : Arena * ScoringReply :=
  let r := ScoringDisplayWebsocketHandler_step messageType data (deref score arena) in
  (assign score (fst r) arena, snd r).

(** The message types of the scoring [switch], in its order. *)
Definition scoringTypes : list string :=
  ["preload"; "mobility"; "scoredHighHot"; "scoredHigh"; "scoredLowHot";
   "scoredLow"; "assist"; "truss"; "catch"; "deadBall"; "commit"; "commitMatch";
   "undo"].

(** The cases that end in the write of the score, by message type. *)
Definition scoringCases : list (string * (RealtimeScore -> RealtimeScore)) :=
  [("mobility", case_mobility); ("scoredHighHot", case_scoredHighHot);
   ("scoredHigh", case_scoredHigh); ("scoredLowHot", case_scoredLowHot);
   ("scoredLow", case_scoredLow); ("assist", case_assist); ("truss", case_truss);
   ("catch", case_catch); ("deadBall", case_deadBall); ("commit", case_commit);
   ("commitMatch", case_commitMatch); ("undo", case_undo)].

(** ** The referee display, page and session *)

(** The field [EntryEnabled] that [RefereeDisplayHandler] gives to the
    template. *)
Definition EntryEnabled (arena : Arena) : bool :=
  negb (FoulsCommitted (redRealtimeScore arena)
        && FoulsCommitted (blueRealtimeScore arena)).

(** A message of the referee display, with the match time at which it is
    handled. *)
Record RefereeMessage : Type := mkRefereeMessage {
  handledAt : float64;
  refereeType : string;
  refereeData : Data
}.

(** The arena after one referee message, and after a sequence of them. *)
Definition refereeStep
    (decodeAddFoul : Data -> string + AddFoulArgs)
    (decodeDeleteFoul : Data -> string + DeleteFoulArgs)
    (arena : Arena) (m : RefereeMessage) : Arena :=
  fst (RefereeDisplayWebsocketHandler_step decodeAddFoul decodeDeleteFoul
         (handledAt m) (refereeType m) (refereeData m) arena).

Definition refereeRun
    (decodeAddFoul : Data -> string + AddFoulArgs)
    (decodeDeleteFoul : Data -> string + DeleteFoulArgs)
    (arena : Arena) (ms : list RefereeMessage) : Arena :=
  fold_left (refereeStep decodeAddFoul decodeDeleteFoul) ms arena.

(** ** Vocabulary of the further properties *)

(** At most one of the three outcome flags is set. *)
Definition exclusiveOutcome (c : Cycle) : bool :=
  match ScoredHigh c, ScoredLow c, DeadBall c with
  | true, false, false | false, true, false | false, false, true
  | false, false, false => true
  | _, _, _ => false
  end.

(** A catch only on a cycle with a truss. *)
Definition catchAfterTruss (c : Cycle) : bool := implb (Catch c) (Truss c).

(** A property of every cycle a score holds: the current one, the committed
    ones, and the ones in the snapshots of both undo stacks. *)
Definition everyCycle (P : Cycle -> Prop) (s : RealtimeScore) : Prop :=
  P (CurrentCycle s)
  /\ Forall P (undoCycles s)
  /\ Forall P (Cycles (CurrentScore s))
  /\ Forall (fun a => Forall P (Cycles a)) (undoAutoScores s).

(** Nothing of teleop is in an autonomous score: no committed cycle and no
    cleared leftover ball. *)
Definition autoOnly (a : Score) : Prop :=
  Cycles a = [] /\ AutoClearHigh a = 0 /\ AutoClearLow a = 0 /\ AutoClearDead a = 0.

(** While autonomous is open the score is autonomous only, and so is every
    snapshot of the auto-undo stack. *)
Definition AutoOnlyInv (s : RealtimeScore) : Prop :=
  (AutoCommitted s = false -> autoOnly (CurrentScore s))
  /\ Forall autoOnly (undoAutoScores s).

(** The totals of the autonomous period. *)
Definition autoTotals (s : RealtimeScore) : list Z :=
  [AutoPreloadedBalls s; AutoMobilityBonuses (CurrentScore s);
   AutoHighHot (CurrentScore s); AutoHigh (CurrentScore s);
   AutoLowHot (CurrentScore s); AutoLow (CurrentScore s)].

(** The counters are far from the ends of [int]. *)
Definition farFromOverflow (s : RealtimeScore) : Prop :=
  Forall (fun z => - 2 ^ 59 <= z <= 2 ^ 59)
    [AutoPreloadedBalls s; AutoHighHot (CurrentScore s); AutoHigh (CurrentScore s);
     AutoLowHot (CurrentScore s); AutoLow (CurrentScore s);
     AutoClearHigh (CurrentScore s); AutoClearLow (CurrentScore s);
     AutoClearDead (CurrentScore s)].

(** The exact value the leftover-ball check stands for. *)
Definition leftoverExact (s : RealtimeScore) : Z :=
  AutoPreloadedBalls s
  - (AutoHigh (CurrentScore s) + AutoHighHot (CurrentScore s)
     + AutoLow (CurrentScore s) + AutoLowHot (CurrentScore s)
     + AutoClearHigh (CurrentScore s) + AutoClearLow (CurrentScore s)
     + AutoClearDead (CurrentScore s)).

(** The score but for its fouls: what the scoring display works on. *)
Definition withoutFouls (s : RealtimeScore) : RealtimeScore :=
  set_FoulsCommitted false (set_Fouls [] s).

(** How many fouls of the list [==] the given one. *)
Definition countFoul (deleteFoul : Foul) (fouls : list Foul) : nat :=
  List.length (filter (fun foul => Foul_eq foul deleteFoul) fouls).

(** The fouls of the list that do not [==] the given one, in order. *)
Definition otherFouls (deleteFoul : Foul) (fouls : list Foul) : list Foul :=
  filter (fun foul => negb (Foul_eq foul deleteFoul)) fouls.

(** * Properties *)

(** ** Arithmetic of [int] *)

Lemma wrap_inRange (z : Z) : GoInt.inRange z -> GoInt.wrap z = z.
Proof.
  unfold GoInt.inRange, GoInt.wrap, GoInt.minInt, GoInt.maxInt. intros H.
  rewrite Z.mod_small; lia.
Qed.

Lemma wrap_range (z : Z) : GoInt.inRange (GoInt.wrap z).
Proof.
  unfold GoInt.inRange, GoInt.wrap, GoInt.minInt, GoInt.maxInt.
  pose proof (Z.mod_pos_bound (z - - 2 ^ 63) (2 ^ 64) ltac:(lia)). lia.
Qed.

(** A subtraction after a wrapped one wraps to the same value as the exact
    difference. *)
Lemma sub_wrap_l (a b : Z) : GoInt.sub (GoInt.wrap a) b = GoInt.wrap (a - b).
Proof.
  unfold GoInt.sub, GoInt.wrap.
  replace ((a - GoInt.minInt) mod 2 ^ 64 + GoInt.minInt - b - GoInt.minInt)
    with ((a - GoInt.minInt) mod 2 ^ 64 - b) by lia.
  rewrite Zminus_mod_idemp_l. f_equal. f_equal. lia.
Qed.

(** The chain of seven subtractions of the leftover-ball check is the wrapped
    value of the preloaded balls minus the sum of the seven counters. *)
Lemma leftoverBalls_sum (s : RealtimeScore) :
  leftoverBalls s =
  GoInt.wrap (AutoPreloadedBalls s
              - (AutoHigh (CurrentScore s) + AutoHighHot (CurrentScore s)
                 + AutoLow (CurrentScore s) + AutoLowHot (CurrentScore s)
                 + AutoClearHigh (CurrentScore s) + AutoClearLow (CurrentScore s)
                 + AutoClearDead (CurrentScore s))).
Proof.
  unfold leftoverBalls.
  unfold GoInt.sub at 7. rewrite !sub_wrap_l. f_equal. lia.
Qed.

(** Without overflow the check is the exact difference. *)
Lemma leftoverBalls_exact (s : RealtimeScore) :
  let r := AutoPreloadedBalls s
           - (AutoHigh (CurrentScore s) + AutoHighHot (CurrentScore s)
              + AutoLow (CurrentScore s) + AutoLowHot (CurrentScore s)
              + AutoClearHigh (CurrentScore s) + AutoClearLow (CurrentScore s)
              + AutoClearDead (CurrentScore s)) in
  GoInt.inRange r -> leftoverBalls s = r.
Proof.
  intros r H. rewrite leftoverBalls_sum. now apply wrap_inRange.
Qed.

(** ** Unfolding the dispatch *)

Lemma step_commit (data : Data) (s : RealtimeScore) :
  ScoringDisplayWebsocketHandler_step "commit" data s = echo (case_commit s).
Proof. reflexivity. Qed.

Lemma step_commitMatch (data : Data) (s : RealtimeScore) :
  ScoringDisplayWebsocketHandler_step "commitMatch" data s = echo (case_commitMatch s).
Proof. reflexivity. Qed.

Lemma step_undo (data : Data) (s : RealtimeScore) :
  ScoringDisplayWebsocketHandler_step "undo" data s = echo (case_undo s).
Proof. reflexivity. Qed.

Lemma step_assist (data : Data) (s : RealtimeScore) :
  ScoringDisplayWebsocketHandler_step "assist" data s = echo (case_assist s).
Proof. reflexivity. Qed.

Lemma step_truss (data : Data) (s : RealtimeScore) :
  ScoringDisplayWebsocketHandler_step "truss" data s = echo (case_truss s).
Proof. reflexivity. Qed.

Lemma step_catch (data : Data) (s : RealtimeScore) :
  ScoringDisplayWebsocketHandler_step "catch" data s = echo (case_catch s).
Proof. reflexivity. Qed.

Lemma step_deadBall (data : Data) (s : RealtimeScore) :
  ScoringDisplayWebsocketHandler_step "deadBall" data s = echo (case_deadBall s).
Proof. reflexivity. Qed.

Lemma step_preload (data : Data) (s : RealtimeScore) :
  ScoringDisplayWebsocketHandler_step "preload" data s = case_preload "preload" data s.
Proof. reflexivity. Qed.

(** ** The leftover-ball rule of commit *)

(** C1, counterexample. A preload of the least [int], one high goal in
    autonomous, then a high goal in teleop: the preloaded balls minus the
    sum of the counters is - 2 ^ 63 - 1, which is not above zero, yet commit
    counts the ball as a leftover one (the [int] difference has wrapped
    around to the greatest [int]) and appends no cycle. *)
Lemma commit_leftover_wraps_around :
  let s := scoringRun NewRealtimeScore
             [("preload", DString "-9223372036854775808"); ("scoredHigh", DNil);
              ("commit", DNil); ("scoredHigh", DNil)] in
  let s' := fst (ScoringDisplayWebsocketHandler_step "commit" DNil s) in
  AutoCommitted s = true
  /\ TeleopCommitted s = false
  /\ ScoredHigh (CurrentCycle s) = true
  /\ AutoPreloadedBalls s
     - (AutoHigh (CurrentScore s) + AutoHighHot (CurrentScore s)
        + AutoLow (CurrentScore s) + AutoLowHot (CurrentScore s)
        + AutoClearHigh (CurrentScore s) + AutoClearLow (CurrentScore s)
        + AutoClearDead (CurrentScore s))
     = - 2 ^ 63 - 1
  /\ leftoverBalls s = 2 ^ 63 - 1
  /\ AutoClearHigh (CurrentScore s) = 0
  /\ AutoClearHigh (CurrentScore s') = 1
  /\ Cycles (CurrentScore s') = [].
Proof. vm_compute. repeat split. Qed.

(** C1, amended. In TeleopOpen, with an outcome on the current cycle,
    commit takes remaining = AutoPreloadedBalls minus the sum of the four
    scored and the three cleared counters as an [int]: the difference
    wrapped around to 64 bits, which is the difference itself whenever that
    is in the range of [int]. If remaining > 0 exactly one clear counter
    goes up by one (as an [int]): the one of the first of scoredHigh,
    scoredLow, deadBall that is set; the two others and the committed cycles
    stay as they are. Otherwise the current cycle is appended to the
    committed cycles and no clear counter moves. In both cases the current
    cycle is reset to the zero cycle and the cycle-undo stack is emptied;
    nothing else changes, and the new score is written back. *)
Theorem commit_leftover_ball_rule (data : Data) (s : RealtimeScore) :
  AutoCommitted s = true ->
  TeleopCommitted s = false ->
  hasOutcome (CurrentCycle s) = true ->
  let a := CurrentScore s in
  let c := CurrentCycle s in
  let difference :=
    AutoPreloadedBalls s
    - (AutoHigh a + AutoHighHot a + AutoLow a + AutoLowHot a
       + AutoClearHigh a + AutoClearLow a + AutoClearDead a) in
  let remaining := GoInt.wrap difference in
  let s' := fst (ScoringDisplayWebsocketHandler_step "commit" data s) in
  let a' := CurrentScore s' in
  (GoInt.inRange difference -> remaining = difference)
  /\ (0 < remaining ->
        AutoClearHigh a'
        = (if ScoredHigh c then GoInt.add (AutoClearHigh a) 1 else AutoClearHigh a)
        /\ AutoClearLow a'
           = (if negb (ScoredHigh c) && ScoredLow c
              then GoInt.add (AutoClearLow a) 1 else AutoClearLow a)
        /\ AutoClearDead a'
           = (if negb (ScoredHigh c) && negb (ScoredLow c)
              then GoInt.add (AutoClearDead a) 1 else AutoClearDead a)
        /\ (ScoredHigh c = false -> ScoredLow c = false -> DeadBall c = true)
        /\ Cycles a' = Cycles a)
  /\ (remaining <= 0 ->
        Cycles a' = (Cycles a ++ [c])%list
        /\ AutoClearHigh a' = AutoClearHigh a
        /\ AutoClearLow a' = AutoClearLow a
        /\ AutoClearDead a' = AutoClearDead a)
  /\ AutoMobilityBonuses a' = AutoMobilityBonuses a
  /\ AutoHighHot a' = AutoHighHot a
  /\ AutoHigh a' = AutoHigh a
  /\ AutoLowHot a' = AutoLowHot a
  /\ AutoLow a' = AutoLow a
  /\ CurrentCycle s' = Cycle_zero
  /\ undoCycles s' = []
  /\ AutoPreloadedBalls s' = AutoPreloadedBalls s
  /\ AutoCommitted s' = true
  /\ TeleopCommitted s' = false
  /\ Fouls s' = Fouls s
  /\ FoulsCommitted s' = FoulsCommitted s
  /\ undoAutoScores s' = undoAutoScores s
  /\ snd (ScoringDisplayWebsocketHandler_step "commit" data s) = WriteScore s'.
Proof.
  intros Hauto Hteleop Hout a c difference remaining s' a'.
  assert (Hrem : leftoverBalls s = remaining) by apply leftoverBalls_sum.
  split; [apply wrap_inRange |].
  subst a' s'. rewrite step_commit. unfold echo, case_commit. cbn [fst snd].
  rewrite Hauto, Hteleop, Hout. cbn [negb].
  rewrite Hrem. fold a c.
  destruct (Z.ltb_spec 0 remaining) as [Hpos | Hnon].
  - split.
    + intros _.
      destruct (ScoredHigh c) eqn:Hh; [| destruct (ScoredLow c) eqn:Hl].
      * cbn. repeat split; intros; discriminate.
      * cbn. repeat split; intros; discriminate.
      * cbn. repeat split. intros _ _. unfold hasOutcome in Hout. fold c in Hout.
        rewrite Hh, Hl in Hout. exact Hout.
    + split; [intros; lia |].
      destruct (ScoredHigh c); [| destruct (ScoredLow c)];
        cbn; rewrite ?Hauto, ?Hteleop; repeat split.
  - split; [intros; lia |].
    split; [intros _; cbn; repeat split |].
    cbn; rewrite ?Hauto, ?Hteleop; repeat split.
Qed.

(** The first scenario of the specification, at the commit of the teleop
    ball: remaining is 2 - 1 = 1. *)
Lemma commit_leftover_ball_rule_witness :
  AutoClearHigh
    (CurrentScore (fst (ScoringDisplayWebsocketHandler_step "commit" DNil
                          (leftoverScenario 1)))) = 1
  /\ Cycles
       (CurrentScore (fst (ScoringDisplayWebsocketHandler_step "commit" DNil
                             (leftoverScenario 1)))) = []
  /\ CurrentCycle (fst (ScoringDisplayWebsocketHandler_step "commit" DNil
                          (leftoverScenario 1)))
     = mkCycle 0 false false false false false
  /\ undoCycles (fst (ScoringDisplayWebsocketHandler_step "commit" DNil
                        (leftoverScenario 1))) = [].
Proof.
  pose proof (commit_leftover_ball_rule DNil (leftoverScenario 1)
                eq_refl eq_refl eq_refl) as H.
  cbv zeta in H.
  destruct H as (_ & Hpos & _ & _ & _ & _ & _ & _ & Hcycle & Hundo & _).
  destruct (Hpos ltac:(vm_compute; reflexivity)) as (Hhigh & _ & _ & _ & Hcycles).
  split; [exact Hhigh |]. split; [exact Hcycles |]. split; assumption.
Defined.

(** The same two scenarios run from a fresh score through the handler. *)
Example leftover_ball_remaining_one :
  let s := scoringRun NewRealtimeScore
             [("preload", DString "2"); ("scoredHigh", DNil); ("commit", DNil);
              ("scoredHigh", DNil); ("commit", DNil)] in
  AutoClearHigh (CurrentScore s) = 1 /\ Cycles (CurrentScore s) = []
  /\ CurrentCycle s = Cycle_zero /\ undoCycles s = [].
Proof. vm_compute. repeat split. Qed.

Example leftover_ball_remaining_zero :
  let s := scoringRun NewRealtimeScore
             [("preload", DString "2"); ("scoredHigh", DNil); ("scoredHigh", DNil);
              ("commit", DNil); ("scoredHigh", DNil); ("commit", DNil)] in
  AutoClearHigh (CurrentScore s) = 0
  /\ Cycles (CurrentScore s) = [set_outcome true false false Cycle_zero]
  /\ CurrentCycle s = Cycle_zero /\ undoCycles s = [].
Proof. vm_compute. repeat split. Qed.

(** ** preload and its parse failure *)

Example Atoi_2 : strconv.Atoi "2" = (2, None).
Proof. reflexivity. Qed.
Example Atoi_minus_17 : strconv.Atoi "-17" = (-17, None).
Proof. reflexivity. Qed.
Example Atoi_plus_5 : strconv.Atoi "+5" = (5, None).
Proof. reflexivity. Qed.
Example Atoi_empty : strconv.Atoi "" = (0, Some strconv.ErrSyntax).
Proof. reflexivity. Qed.
Example Atoi_letters : strconv.Atoi "abc" = (0, Some strconv.ErrSyntax).
Proof. reflexivity. Qed.
Example Atoi_fraction : strconv.Atoi "2.5" = (0, Some strconv.ErrSyntax).
Proof. reflexivity. Qed.
Example Atoi_maxInt : strconv.Atoi "9223372036854775807" = (GoInt.maxInt, None).
Proof. reflexivity. Qed.
Example Atoi_minInt : strconv.Atoi "-9223372036854775808" = (GoInt.minInt, None).
Proof. reflexivity. Qed.
Example Atoi_too_big :
  strconv.Atoi "9223372036854775808" = (GoInt.maxInt, Some strconv.ErrRange).
Proof. reflexivity. Qed.
Example Atoi_way_too_big :
  strconv.Atoi "99999999999999999999999" = (GoInt.maxInt, Some strconv.ErrRange).
Proof. reflexivity. Qed.

(** What the preload case does with a payload that does not parse, phase by
    phase: not a string, the score is untouched and the failure is written;
    a string that [Atoi] rejects, the failure is written after the count has
    been overwritten with the value [Atoi] returns beside its error; once
    autonomous is committed, nothing is parsed and the score is written
    back. *)
Lemma preload_parse_failure_cases (data : Data) (s : RealtimeScore) :
  parsesAsInt data = false ->
  let r := ScoringDisplayWebsocketHandler_step "preload" data s in
  (AutoCommitted s = true -> r = (s, WriteScore s))
  /\ (AutoCommitted s = false -> asString data = None ->
        r = (s, WriteError "Failed to parse 'preload' message."))
  /\ (AutoCommitted s = false -> forall str, asString data = Some str ->
        r = (set_AutoPreloadedBalls (fst (strconv.Atoi str)) s,
             WriteError "Failed to parse 'preload' message.")).
Proof.
  intros Hfail r. subst r. rewrite step_preload. unfold case_preload.
  repeat split.
  - intros ->. reflexivity.
  - intros -> ->. reflexivity.
  - intros -> str Hstr. cbn [negb]. unfold parsesAsInt in Hfail.
    rewrite Hstr in *. destruct (strconv.Atoi str) as [n [e |]]; cbn in *.
    + reflexivity.
    + discriminate.
Qed.

(** C2. A preload whose payload does not parse as an integer, sent in the
    autonomous phase after two balls were preloaded: the handler writes the
    parse failure, and the count of preloaded balls is no longer 2. The
    count is assigned before the error of [Atoi] is looked at, so it takes
    the 0 of a syntax error, or the largest [int] of a range error. *)
Theorem preload_parse_failure_overwrites :
  let s := scoringRun NewRealtimeScore [("preload", DString "2")] in
  AutoPreloadedBalls s = 2
  /\ AutoCommitted s = false
  /\ parsesAsInt (DString "abc") = false
  /\ ScoringDisplayWebsocketHandler_step "preload" (DString "abc") s
     = (set_AutoPreloadedBalls 0 s, WriteError "Failed to parse 'preload' message.")
  /\ AutoPreloadedBalls
       (fst (ScoringDisplayWebsocketHandler_step "preload" (DString "abc") s)) = 0
  /\ parsesAsInt (DString "9223372036854775808") = false
  /\ AutoPreloadedBalls
       (fst (ScoringDisplayWebsocketHandler_step "preload"
               (DString "9223372036854775808") s)) = GoInt.maxInt.
Proof. vm_compute. repeat split. Qed.

(** ** The teleop cycle commands and the phase *)

(** The four cycle cases only read [TeleopCommitted] and the current cycle,
    never [AutoCommitted]: the flag can be set before or after the case. *)
Lemma cycle_case_ignores_AutoCommitted (f : RealtimeScore -> RealtimeScore) :
  f = case_assist \/ f = case_truss \/ f = case_catch \/ f = case_deadBall ->
  forall (b : bool) (s : RealtimeScore),
    f (set_AutoCommitted b s) = set_AutoCommitted b (f s).
Proof.
  intros [-> | [-> | [-> | ->]]] b s;
    unfold case_assist, case_truss, case_catch, case_deadBall; cbn;
    match goal with |- context [if ?c then _ else _] => destruct c end;
    reflexivity.
Qed.

Lemma cycle_case_frame (f : RealtimeScore -> RealtimeScore) :
  f = case_assist \/ f = case_truss \/ f = case_catch \/ f = case_deadBall ->
  forall s : RealtimeScore,
    CurrentScore (f s) = CurrentScore s
    /\ undoAutoScores (f s) = undoAutoScores s
    /\ AutoPreloadedBalls (f s) = AutoPreloadedBalls s
    /\ AutoCommitted (f s) = AutoCommitted s
    /\ TeleopCommitted (f s) = TeleopCommitted s
    /\ Fouls (f s) = Fouls s
    /\ FoulsCommitted (f s) = FoulsCommitted s.
Proof.
  intros [-> | [-> | [-> | ->]]] s;
    unfold case_assist, case_truss, case_catch, case_deadBall;
    match goal with |- context [if ?c then _ else _] => destruct c end;
    cbn; repeat split.
Qed.

Lemma cycle_case_closed (f : RealtimeScore -> RealtimeScore) :
  f = case_assist \/ f = case_truss \/ f = case_catch \/ f = case_deadBall ->
  forall s : RealtimeScore, TeleopCommitted s = true -> f s = s.
Proof.
  intros [-> | [-> | [-> | ->]]] s H;
    unfold case_assist, case_truss, case_catch, case_deadBall;
    rewrite H; reflexivity.
Qed.

Lemma cycle_command_case (messageType : string) :
  isCycleCommand messageType ->
  exists f,
    (f = case_assist \/ f = case_truss \/ f = case_catch \/ f = case_deadBall)
    /\ forall data s,
         ScoringDisplayWebsocketHandler_step messageType data s = echo (f s).
Proof.
  intros [-> | [-> | [-> | ->]]];
    [exists case_assist | exists case_truss | exists case_catch
     | exists case_deadBall]; split; auto; reflexivity.
Qed.

(** C3, counterexample. A fresh score is in AutoOpen; assist changes its
    current cycle and pushes on the cycle-undo stack. *)
Lemma assist_in_AutoOpen_changes_cycle :
  AutoCommitted NewRealtimeScore = false
  /\ CurrentCycle
       (fst (ScoringDisplayWebsocketHandler_step "assist" DNil NewRealtimeScore))
     = set_Assists 1 Cycle_zero
  /\ undoCycles
       (fst (ScoringDisplayWebsocketHandler_step "assist" DNil NewRealtimeScore))
     = [Cycle_zero]
  /\ fst (ScoringDisplayWebsocketHandler_step "assist" DNil NewRealtimeScore)
     <> NewRealtimeScore.
Proof.
  vm_compute. repeat split. discriminate.
Qed.

(** C3, amended. assist, truss, catch and deadBall are closed by
    [TeleopCommitted] alone. With it set the command is a silent no-op: the
    score, its current cycle and both undo stacks are unchanged and the score
    is written back. In AutoOpen the command does to the current cycle and
    the cycle-undo stack what it does in TeleopOpen, and leaves the
    autonomous score, the auto-undo stack, the preloaded balls, the fouls and
    the commit flags as they are; no error is written. *)
Theorem cycle_commands_closed_by_TeleopCommitted
    (messageType : string) (data : Data) (s : RealtimeScore) :
  isCycleCommand messageType ->
  let s' := fst (ScoringDisplayWebsocketHandler_step messageType data s) in
  snd (ScoringDisplayWebsocketHandler_step messageType data s) = WriteScore s'
  /\ (TeleopCommitted s = true -> s' = s)
  /\ (AutoCommitted s = false ->
        s' = set_AutoCommitted false
               (fst (ScoringDisplayWebsocketHandler_step messageType data
                       (set_AutoCommitted true s)))
        /\ CurrentScore s' = CurrentScore s
        /\ undoAutoScores s' = undoAutoScores s
        /\ AutoPreloadedBalls s' = AutoPreloadedBalls s
        /\ AutoCommitted s' = false
        /\ TeleopCommitted s' = TeleopCommitted s
        /\ Fouls s' = Fouls s
        /\ FoulsCommitted s' = FoulsCommitted s).
Proof.
  intros Hcmd s'. subst s'.
  destruct (cycle_command_case messageType Hcmd) as [f [Hf Hstep]].
  rewrite !Hstep. unfold echo. cbn [fst snd].
  split; [reflexivity |]. split.
  - apply cycle_case_closed; assumption.
  - intros Hauto.
    destruct (cycle_case_frame f Hf s) as (H1 & H2 & H3 & H4 & H5 & H6 & H7).
    split.
    + rewrite (cycle_case_ignores_AutoCommitted f Hf true s).
      assert (Hf' : AutoCommitted (f s) = false) by congruence.
      clear - Hf'. destruct (f s) as [a c p ac tc fl fc ua uc].
      cbn in Hf' |- *. rewrite Hf'. reflexivity.
    + rewrite H4. repeat split; assumption.
Qed.

Lemma cycle_commands_closed_by_TeleopCommitted_witness :
  fst (ScoringDisplayWebsocketHandler_step "truss" DNil NewRealtimeScore)
  = set_AutoCommitted false
      (fst (ScoringDisplayWebsocketHandler_step "truss" DNil
              (set_AutoCommitted true NewRealtimeScore)))
  /\ Truss (CurrentCycle
              (fst (ScoringDisplayWebsocketHandler_step "truss" DNil
                      NewRealtimeScore))) = true.
Proof.
  pose proof (cycle_commands_closed_by_TeleopCommitted "truss" DNil
                NewRealtimeScore (or_intror (or_introl eq_refl))) as H.
  cbv zeta in H. destruct H as [_ [_ H]].
  destruct (H eq_refl) as [Heq _].
  split; [exact Heq | reflexivity].
Defined.

(** ** catch needs truss *)

(** C8. With truss false on the current cycle, catch leaves the whole score
    unchanged (and writes it back). catch changes the score only when the
    match is not committed, truss is true and catch is false on the current
    cycle; it then pushes the cycle on the cycle-undo stack and sets the
    catch flag, nothing else. *)
Theorem catch_requires_truss (data : Data) (s : RealtimeScore) :
  let s' := fst (ScoringDisplayWebsocketHandler_step "catch" data s) in
  (Truss (CurrentCycle s) = false ->
     ScoringDisplayWebsocketHandler_step "catch" data s = (s, WriteScore s))
  /\ (s' <> s ->
        Truss (CurrentCycle s) = true /\ Catch (CurrentCycle s) = false
        /\ TeleopCommitted s = false)
  /\ (Truss (CurrentCycle s) = true -> Catch (CurrentCycle s) = false ->
      TeleopCommitted s = false ->
        s' = set_CurrentCycle (set_Catch true (CurrentCycle s))
               (set_undoCycles (undoCycles s ++ [CurrentCycle s]) s))
  /\ (Catch (CurrentCycle s') = true ->
        Catch (CurrentCycle s) = true \/ Truss (CurrentCycle s) = true).
Proof.
  intros s'. subst s'. rewrite step_catch. unfold echo, case_catch. cbn [fst snd].
  destruct (TeleopCommitted s), (Catch (CurrentCycle s)) eqn:Hc,
    (Truss (CurrentCycle s)) eqn:Ht; cbn;
    repeat split; intros; try discriminate; try contradiction; try congruence;
    auto.
Qed.

Lemma catch_requires_truss_witness :
  ScoringDisplayWebsocketHandler_step "catch" DNil
    (set_AutoCommitted true NewRealtimeScore)
  = (set_AutoCommitted true NewRealtimeScore,
     WriteScore (set_AutoCommitted true NewRealtimeScore)).
Proof.
  pose proof (catch_requires_truss DNil (set_AutoCommitted true NewRealtimeScore))
    as H.
  cbv zeta in H. destruct H as [H _]. exact (H eq_refl).
Defined.

Example catch_after_truss :
  let s := scoringRun NewRealtimeScore
             [("commit", DNil); ("catch", DNil); ("truss", DNil); ("catch", DNil)] in
  CurrentCycle s = set_Catch true (set_Truss true Cycle_zero)
  /\ undoCycles s = [Cycle_zero; set_Truss true Cycle_zero].
Proof. vm_compute. split; reflexivity. Qed.

(** ** Stacks *)



Lemma top_Forall {A : Type} (P : A -> Prop) (stack : list A) (d : A) :
  Forall P stack -> P d -> P (top stack d).
Proof.
  unfold top. induction stack as [| x [| y rest] IH]; intros Hall Hd.
  - exact Hd.
  - now inversion Hall.
  - apply IH; [now inversion Hall | exact Hd].
Qed.

Lemma pop_Forall {A : Type} (P : A -> Prop) (stack : list A) :
  Forall P stack -> Forall P (pop stack).
Proof.
  unfold pop. induction stack as [| x [| y rest] IH]; intros Hall.
  - constructor.
  - constructor.
  - inversion Hall; subst. constructor; [assumption | now apply IH].
Qed.

Lemma push_Forall {A : Type} (P : A -> Prop) (stack : list A) (x : A) :
  Forall P stack -> P x -> Forall P (push stack x).
Proof.
  intros Hall Hx. unfold push. apply Forall_app. split; [assumption |].
  constructor; [assumption | constructor].
Qed.

(** A property of the score that every case of the switch keeps is kept by a
    message of any type, and so by any sequence of messages. *)
Section Invariant.

Variable Inv : RealtimeScore -> Prop.

Hypothesis Inv_preload :
  forall v s, Inv s -> Inv (set_AutoPreloadedBalls v s).
Hypothesis Inv_mobility : forall s, Inv s -> Inv (case_mobility s).
Hypothesis Inv_scoredHighHot : forall s, Inv s -> Inv (case_scoredHighHot s).
Hypothesis Inv_scoredHigh : forall s, Inv s -> Inv (case_scoredHigh s).
Hypothesis Inv_scoredLowHot : forall s, Inv s -> Inv (case_scoredLowHot s).
Hypothesis Inv_scoredLow : forall s, Inv s -> Inv (case_scoredLow s).
Hypothesis Inv_assist : forall s, Inv s -> Inv (case_assist s).
Hypothesis Inv_truss : forall s, Inv s -> Inv (case_truss s).
Hypothesis Inv_catch : forall s, Inv s -> Inv (case_catch s).
Hypothesis Inv_deadBall : forall s, Inv s -> Inv (case_deadBall s).
Hypothesis Inv_commit : forall s, Inv s -> Inv (case_commit s).
Hypothesis Inv_commitMatch : forall s, Inv s -> Inv (case_commitMatch s).
Hypothesis Inv_undo : forall s, Inv s -> Inv (case_undo s).

Lemma Inv_step (s : RealtimeScore) (m : Message) :
  Inv s -> Inv (scoringStep s m).
Proof.
  intros H. destruct m as [messageType data].
  unfold scoringStep, ScoringDisplayWebsocketHandler_step. cbn [fst snd].
  repeat match goal with
         | |- context [String.eqb messageType ?k] =>
             destruct (String.eqb messageType k)
         end; unfold echo; cbn [fst]; auto.
  unfold case_preload.
  destruct (negb (AutoCommitted s)); [| exact H].
  destruct (asString data) as [str |]; [| exact H].
  destruct (strconv.Atoi str) as [n [e |]]; cbn [fst]; auto.
Qed.

Lemma Inv_run (ms : list Message) (s : RealtimeScore) :
  Inv s -> Inv (scoringRun s ms).
Proof.
  revert s. induction ms as [| m ms IH]; intros s H; [exact H |].
  cbn. apply IH. now apply Inv_step.
Qed.

End Invariant.

(** ** At most three assists *)

Lemma add_one_small (z : Z) : 0 <= z < 3 -> GoInt.add z 1 = z + 1.
Proof.
  intros H. unfold GoInt.add. apply wrap_inRange.
  unfold GoInt.inRange, GoInt.minInt, GoInt.maxInt. lia.
Qed.

Ltac split_if :=
  match goal with
  | |- context [if ?c then _ else _] => destruct c eqn:?
  end.

Lemma AssistsInv_snapshotCycle (s : RealtimeScore) (c : Cycle) :
  AssistsInv s -> assistsBounded c -> AssistsInv (set_CurrentCycle c (snapshotCycle s)).
Proof.
  intros [Hc Hu] Hb. split; [exact Hb |]. cbn. now apply push_Forall.
Qed.

(** The cases that leave the assists alone: the score is unchanged, or only
    its autonomous part moved, or the cycle was pushed and its flags set. *)
Ltac assists_frame H :=
  first [ exact H
        | destruct H; split; assumption
        | apply AssistsInv_snapshotCycle; [exact H | apply H] ].

Lemma AssistsInv_run (ms : list Message) (s : RealtimeScore) :
  AssistsInv s -> AssistsInv (scoringRun s ms).
Proof.
  apply Inv_run; clear.
  - intros v s H. destruct H; split; assumption.
  - intros s H. unfold case_mobility. repeat split_if; assists_frame H.
  - intros s H. unfold case_scoredHighHot. repeat split_if; assists_frame H.
  - intros s H. unfold case_scoredHigh. repeat split_if; assists_frame H.
  - intros s H. unfold case_scoredLowHot. repeat split_if; assists_frame H.
  - intros s H. unfold case_scoredLow. repeat split_if; assists_frame H.
  - intros s H. unfold case_assist. split_if; [| exact H].
    apply AssistsInv_snapshotCycle; [exact H |].
    apply andb_prop in Heqb. destruct Heqb as [_ Hlt].
    apply Z.ltb_lt in Hlt. destruct H as [[Hlo Hhi] _].
    unfold assistsBounded. cbn. rewrite add_one_small; lia.
  - intros s H. unfold case_truss. repeat split_if; assists_frame H.
  - intros s H. unfold case_catch. repeat split_if; assists_frame H.
  - intros s H. unfold case_deadBall. repeat split_if; assists_frame H.
  - intros s H. unfold case_commit. repeat split_if;
      first [ exact H
            | destruct H; split; assumption
            | split; [unfold assistsBounded; cbn; lia | constructor] ].
  - intros s H. unfold case_commitMatch. split_if; destruct H; split; assumption.
  - intros s H. unfold case_undo. repeat split_if;
      first [ exact H
            | destruct H; split; assumption
            | destruct H as [Hc Hu]; split; cbn;
              [now apply top_Forall | now apply pop_Forall] ].
Qed.

Lemma AssistsInv_fresh : AssistsInv NewRealtimeScore.
Proof. split; [unfold assistsBounded; cbn; lia | constructor]. Qed.

(** C9. From a fresh score, after any sequence of messages (assist, undo
    and all the others, of any type and payload), the current cycle has at
    most three assists. assist changes the score only when the count is
    below 3, and then adds one to it; with the count at 3 or more it is a
    no-op. *)
Theorem assists_never_exceed_three :
  (forall ms : list Message,
     0 <= Assists (CurrentCycle (scoringRun NewRealtimeScore ms)) <= 3)
  /\ (forall data s,
        3 <= Assists (CurrentCycle s) ->
        ScoringDisplayWebsocketHandler_step "assist" data s = (s, WriteScore s))
  /\ (forall data s,
        fst (ScoringDisplayWebsocketHandler_step "assist" data s) <> s ->
        Assists (CurrentCycle s) < 3
        /\ Assists (CurrentCycle
                      (fst (ScoringDisplayWebsocketHandler_step "assist" data s)))
           = GoInt.add (Assists (CurrentCycle s)) 1).
Proof.
  split; [| split].
  - intros ms. apply (AssistsInv_run ms NewRealtimeScore AssistsInv_fresh).
  - intros data s H. rewrite step_assist. unfold echo, case_assist.
    apply Z.ltb_ge in H. rewrite H, andb_false_r. reflexivity.
  - intros data s. rewrite step_assist. unfold echo, case_assist. cbn [fst].
    destruct (negb (TeleopCommitted s)); cbn [andb];
      [| intros H; now contradiction H].
    destruct (Z.ltb_spec (Assists (CurrentCycle s)) 3) as [Hlt | Hge];
      [| intros H; now contradiction H].
    intros _. split; [exact Hlt | reflexivity].
Qed.

Example four_assists_count_three :
  Assists (CurrentCycle
             (scoringRun NewRealtimeScore
                [("commit", DNil); ("assist", DNil); ("assist", DNil);
                 ("assist", DNil); ("assist", DNil)])) = 3.
Proof. reflexivity. Qed.

(** ** Which cycles are committed *)

Lemma hasOutcome_nonzero (c : Cycle) : hasOutcome c = true -> nonzero c.
Proof.
  unfold hasOutcome, nonzero, Cycle_eq. cbn.
  destruct (ScoredHigh c), (ScoredLow c), (DeadBall c); cbn;
    rewrite ?andb_false_r; intros H; try reflexivity; discriminate.
Qed.

Ltac cycles_frame H :=
  first [ exact H
        | destruct H; split; assumption
        | destruct H as [? ?]; split; cbn;
          [assumption | apply push_Forall; assumption] ].

Lemma CyclesInv_run (ms : list Message) (s : RealtimeScore) :
  CyclesInv s -> CyclesInv (scoringRun s ms).
Proof.
  apply Inv_run; clear.
  - intros v s H. destruct H; split; assumption.
  - intros s H. unfold case_mobility. repeat split_if; cycles_frame H.
  - intros s H. unfold case_scoredHighHot. repeat split_if; cycles_frame H.
  - intros s H. unfold case_scoredHigh. repeat split_if; cycles_frame H.
  - intros s H. unfold case_scoredLowHot. repeat split_if; cycles_frame H.
  - intros s H. unfold case_scoredLow. repeat split_if; cycles_frame H.
  - intros s H. unfold case_assist. repeat split_if; cycles_frame H.
  - intros s H. unfold case_truss. repeat split_if; cycles_frame H.
  - intros s H. unfold case_catch. repeat split_if; cycles_frame H.
  - intros s H. unfold case_deadBall. repeat split_if; cycles_frame H.
  - intros s H. unfold case_commit.
    destruct (negb (AutoCommitted s)); [cycles_frame H |].
    destruct (negb (TeleopCommitted s)); [| exact H].
    destruct (hasOutcome (CurrentCycle s)) eqn:Hout; [| exact H].
    destruct H as [Hc Hu].
    destruct (0 <? leftoverBalls s).
    + destruct (ScoredHigh (CurrentCycle s)); [| destruct (ScoredLow (CurrentCycle s))];
        split; assumption.
    + split; [| assumption]. cbn. apply push_Forall; [assumption |].
      now apply hasOutcome_nonzero.
  - intros s H. unfold case_commitMatch. cbn.
    destruct (Cycle_eq (CurrentCycle s) Cycle_zero) eqn:Hz; cbn;
      destruct H as [Hc Hu]; split; try assumption.
    cbn. apply push_Forall; assumption.
  - intros s H. unfold case_undo. repeat split_if;
      first [ exact H
            | destruct H; split; assumption
            | destruct H as [Hc Hu]; split; cbn;
              [ apply (top_Forall (fun a => Forall nonzero (Cycles a)));
                assumption
              | apply pop_Forall; assumption ] ].
Qed.

Lemma CyclesInv_fresh : CyclesInv NewRealtimeScore.
Proof. split; constructor. Qed.

(** C4, counterexample. From a fresh score, assist and then commitMatch:
    the committed list holds a cycle with one assist and none of
    scoredHigh, scoredLow, deadBall. *)
Lemma commitMatch_appends_cycle_without_outcome :
  Cycles (CurrentScore
            (scoringRun NewRealtimeScore [("assist", DNil); ("commitMatch", DNil)]))
  = [set_Assists 1 Cycle_zero]
  /\ hasOutcome (set_Assists 1 Cycle_zero) = false.
Proof. vm_compute. split; reflexivity. Qed.

(** C4, amended. commit never appends a cycle with none of scoredHigh,
    scoredLow, deadBall set: it leaves the committed list alone or appends
    the current cycle, which then has one of the three set. commitMatch
    appends the current cycle exactly when it differs from the zero cycle in
    some field, assists, truss and catch included. In every score reached
    from a fresh one by any sequence of messages, no committed cycle is the
    zero cycle. *)
Theorem committed_cycles_rule :
  (forall data s,
     let s' := fst (ScoringDisplayWebsocketHandler_step "commit" data s) in
     Cycles (CurrentScore s') = Cycles (CurrentScore s)
     \/ (Cycles (CurrentScore s') = (Cycles (CurrentScore s) ++ [CurrentCycle s])%list
         /\ hasOutcome (CurrentCycle s) = true))
  /\ (forall data s,
        let s' := fst (ScoringDisplayWebsocketHandler_step "commitMatch" data s) in
        Cycles (CurrentScore s')
        = if Cycle_eq (CurrentCycle s) Cycle_zero then Cycles (CurrentScore s)
          else (Cycles (CurrentScore s) ++ [CurrentCycle s])%list)
  /\ (forall ms : list Message,
        Forall (fun c => Cycle_eq c Cycle_zero = false)
          (Cycles (CurrentScore (scoringRun NewRealtimeScore ms)))).
Proof.
  split; [| split].
  - intros data s s'. subst s'. rewrite step_commit. unfold echo, case_commit.
    cbn [fst].
    destruct (negb (AutoCommitted s)); [left; reflexivity |].
    destruct (negb (TeleopCommitted s)); [| left; reflexivity].
    destruct (hasOutcome (CurrentCycle s)) eqn:Hout; [| left; reflexivity].
    destruct (0 <? leftoverBalls s).
    + left.
      destruct (ScoredHigh (CurrentCycle s)); [| destruct (ScoredLow (CurrentCycle s))];
        reflexivity.
    + right. split; reflexivity.
  - intros data s s'. subst s'. rewrite step_commitMatch.
    unfold echo, case_commitMatch. cbn.
    destruct (Cycle_eq (CurrentCycle s) Cycle_zero); reflexivity.
  - intros ms. apply (CyclesInv_run ms NewRealtimeScore CyclesInv_fresh).
Qed.

Example commit_skips_cycle_without_outcome :
  let s := scoringRun NewRealtimeScore
             [("commit", DNil); ("assist", DNil); ("truss", DNil); ("commit", DNil)] in
  Cycles (CurrentScore s) = []
  /\ CurrentCycle s = set_Truss true (set_Assists 1 Cycle_zero).
Proof. vm_compute. split; reflexivity. Qed.

(** ** undo *)






Lemma undo_nothing (s : RealtimeScore) :
  AutoCommitted s = true \/ undoAutoScores s = [] ->
  TeleopCommitted s = true \/ undoCycles s = [] ->
  case_undo s = s.
Proof.
  intros Hauto Hteleop. unfold case_undo.
  assert (Hfirst : negb (AutoCommitted s)
                   && (0 <? Z.of_nat (List.length (undoAutoScores s))) = false).
  { destruct Hauto as [-> | ->]; [reflexivity | apply andb_false_r]. }
  assert (Hsecond : negb (TeleopCommitted s)
                    && (0 <? Z.of_nat (List.length (undoCycles s))) = false).
  { destruct Hteleop as [-> | ->]; [reflexivity | apply andb_false_r]. }
  rewrite Hfirst, Hsecond. reflexivity.
Qed.







Example undo_cycle_stack_in_teleop :
  let s := scoringRun NewRealtimeScore
             [("commit", DNil); ("assist", DNil); ("truss", DNil);
              ("scoredLow", DNil)] in
  undoTimes 1 s
  = scoringRun NewRealtimeScore [("commit", DNil); ("assist", DNil); ("truss", DNil)]
  /\ undoTimes 2 s = scoringRun NewRealtimeScore [("commit", DNil); ("assist", DNil)]
  /\ undoTimes 3 s = scoringRun NewRealtimeScore [("commit", DNil)]
  /\ undoTimes 4 s = scoringRun NewRealtimeScore [("commit", DNil)].
Proof. vm_compute. repeat split. Qed.

(** ** The foul ledger *)

Lemma indexOfFoul_None (deleteFoul : Foul) (fouls : list Foul) :
  noMatch deleteFoul fouls -> indexOfFoul deleteFoul fouls = None.
Proof.
  induction 1 as [| foul rest Hfoul _ IH]; cbn; [reflexivity |].
  now rewrite Hfoul, IH.
Qed.

Lemma indexOfFoul_first (deleteFoul : Foul) (before after : list Foul) (x : Foul) :
  noMatch deleteFoul before ->
  Foul_eq x deleteFoul = true ->
  indexOfFoul deleteFoul (before ++ x :: after) = Some (List.length before).
Proof.
  induction 1 as [| foul rest Hfoul _ IH]; intros Hx; cbn.
  - now rewrite Hx.
  - now rewrite Hfoul, IH.
Qed.

(** A list with a match splits at its first match. *)
Lemma first_match_split (deleteFoul : Foul) (fouls : list Foul) :
  (exists x, In x fouls /\ Foul_eq x deleteFoul = true) ->
  exists before x after,
    fouls = (before ++ x :: after)%list
    /\ noMatch deleteFoul before
    /\ Foul_eq x deleteFoul = true.
Proof.
  induction fouls as [| foul rest IH]; intros [x [Hin Hx]]; [contradiction |].
  destruct (Foul_eq foul deleteFoul) eqn:Hfoul.
  - exists [], foul, rest. repeat split; [constructor | assumption].
  - destruct Hin as [-> | Hin]; [congruence |].
    destruct IH as (before & y & after & -> & Hbefore & Hy); [now exists x |].
    exists (foul :: before), y, after. repeat split; [| assumption].
    now constructor.
Qed.

Lemma removeFoul_first (deleteFoul : Foul) (before after : list Foul) (x : Foul) :
  noMatch deleteFoul before ->
  Foul_eq x deleteFoul = true ->
  removeFoul deleteFoul (before ++ x :: after) = (before ++ after)%list.
Proof.
  intros Hbefore Hx. unfold removeFoul.
  rewrite (indexOfFoul_first _ _ _ _ Hbefore Hx).
  rewrite firstn_app, firstn_all, Nat.sub_diag, firstn_O, app_nil_r.
  f_equal.
  change (S (List.length before)) with (1 + List.length before)%nat.
  rewrite Nat.add_comm, skipn_app, skipn_all2 by lia.
  replace (List.length before + 1 - List.length before)%nat with 1%nat by lia.
  reflexivity.
Qed.

Lemma removeFoul_absent (deleteFoul : Foul) (fouls : list Foul) :
  noMatch deleteFoul fouls -> removeFoul deleteFoul fouls = fouls.
Proof.
  intros H. unfold removeFoul. now rewrite indexOfFoul_None.
Qed.

Lemma match_or_noMatch (deleteFoul : Foul) (fouls : list Foul) :
  noMatch deleteFoul fouls
  \/ exists x, In x fouls /\ Foul_eq x deleteFoul = true.
Proof.
  induction fouls as [| foul rest [IH | [x [Hin Hx]]]].
  - left. constructor.
  - destruct (Foul_eq foul deleteFoul) eqn:Hfoul.
    + right. exists foul. split; [now left | assumption].
    + left. now constructor.
  - right. exists x. split; [now right | assumption].
Qed.

(** What the loop of deleteFoul does to the list. *)
Lemma removeFoul_firstMatchRemoved (deleteFoul : Foul) (fouls : list Foul) :
  firstMatchRemoved deleteFoul fouls (removeFoul deleteFoul fouls).
Proof.
  destruct (match_or_noMatch deleteFoul fouls) as [Hnone | Hex].
  - left. split; [exact Hnone | now apply removeFoul_absent].
  - right.
    destruct (first_match_split deleteFoul fouls Hex)
      as (before & x & after & Hsplit & Hbefore & Hx).
    exists before, x, after. repeat split; try assumption.
    rewrite Hsplit. now apply removeFoul_first.
Qed.

Lemma case_deleteFoul_selected (args : DeleteFoulArgs) (arena : Arena) :
  selectedFouls (del_Alliance args) (case_deleteFoul args arena)
  = removeFoul
      (mkFoul (del_TeamId args) (del_Rule args) (del_IsTechnical args)
         (del_TimeInMatchSec args))
      (selectedFouls (del_Alliance args) arena).
Proof.
  unfold selectedFouls, case_deleteFoul.
  destruct (del_Alliance args =? "red")%string; reflexivity.
Qed.

Section RefereeProperties.

Variable decodeAddFoul : Data -> string + AddFoulArgs.
Variable decodeDeleteFoul : Data -> string + DeleteFoulArgs.

Local Abbreviation step :=
  (RefereeDisplayWebsocketHandler_step decodeAddFoul decodeDeleteFoul).


(** C7. deleteFoul on a list that holds a foul equal (by [==], on the
    team, the rule, the technical flag and the time) to the given one
    removes the first such entry and nothing else, so the list is one
    shorter even when the foul is there more than once; on a list without
    a match it changes nothing. *)
Theorem deleteFoul_removes_first_match
    (matchTimeSec : float64) (data : Data) (args : DeleteFoulArgs)
    (arena : Arena) :
  decodeDeleteFoul data = inr args ->
  let deleteFoul :=
    mkFoul (del_TeamId args) (del_Rule args) (del_IsTechnical args)
           (del_TimeInMatchSec args) in
  let fouls := selectedFouls (del_Alliance args) arena in
  let fouls' :=
    selectedFouls (del_Alliance args)
      (fst (step matchTimeSec "deleteFoul" data arena)) in
  ((exists x, In x fouls /\ Foul_eq x deleteFoul = true) ->
     exists before x after,
       fouls = (before ++ x :: after)%list
       /\ Forall (fun y => Foul_eq y deleteFoul = false) before
       /\ Foul_eq x deleteFoul = true
       /\ fouls' = (before ++ after)%list
       /\ S (List.length fouls') = List.length fouls)
  /\ ((forall x, In x fouls -> Foul_eq x deleteFoul = false) -> fouls' = fouls).
Proof.
  intros Hdecode deleteFoul fouls fouls'.
  assert (Hfouls' : fouls' = removeFoul deleteFoul fouls).
  { subst fouls' fouls deleteFoul.
    unfold RefereeDisplayWebsocketHandler_step. cbn [String.eqb Ascii.eqb Bool.eqb].
    rewrite Hdecode. cbn [fst]. apply case_deleteFoul_selected. }
  rewrite Hfouls'. split.
  - intros Hex.
    destruct (first_match_split deleteFoul fouls Hex)
      as (before & x & after & Hsplit & Hbefore & Hx).
    exists before, x, after. rewrite Hsplit.
    rewrite (removeFoul_first _ _ _ _ Hbefore Hx).
    repeat split; try assumption.
    rewrite !length_app. cbn. lia.
  - intros Hnone. apply removeFoul_absent. apply Forall_forall. exact Hnone.
Qed.

(** C10. An addFoul or deleteFoul whose alliance is any string but "red"
    works on the blue list and leaves the red score alone: the blue list
    gets the new foul at its end, or loses its first foul equal to the given
    one. With "red", and only then, the same is done to the red list and the
    blue score is left alone. Nothing but the foul list of the chosen score
    changes. *)
Theorem foul_alliance_selection
    (matchTimeSec : float64) (data : Data) (arena : Arena) :
  (forall args,
     decodeAddFoul data = inr args ->
     let arena' := fst (step matchTimeSec "addFoul" data arena) in
     let foul := mkFoul (add_TeamId args) (add_Rule args) (add_IsTechnical args)
                        matchTimeSec in
     (add_Alliance args <> "red" ->
        redRealtimeScore arena' = redRealtimeScore arena
        /\ Fouls (blueRealtimeScore arena')
           = (Fouls (blueRealtimeScore arena) ++ [foul])%list
        /\ sameButFouls (blueRealtimeScore arena) (blueRealtimeScore arena'))
     /\ (add_Alliance args = "red" ->
           blueRealtimeScore arena' = blueRealtimeScore arena
           /\ Fouls (redRealtimeScore arena')
              = (Fouls (redRealtimeScore arena) ++ [foul])%list
           /\ sameButFouls (redRealtimeScore arena) (redRealtimeScore arena')))
  /\ (forall args,
        decodeDeleteFoul data = inr args ->
        let arena' := fst (step matchTimeSec "deleteFoul" data arena) in
        let deleteFoul :=
          mkFoul (del_TeamId args) (del_Rule args) (del_IsTechnical args)
                 (del_TimeInMatchSec args) in
        (del_Alliance args <> "red" ->
           redRealtimeScore arena' = redRealtimeScore arena
           /\ firstMatchRemoved deleteFoul (Fouls (blueRealtimeScore arena))
                (Fouls (blueRealtimeScore arena'))
           /\ sameButFouls (blueRealtimeScore arena) (blueRealtimeScore arena'))
        /\ (del_Alliance args = "red" ->
              blueRealtimeScore arena' = blueRealtimeScore arena
              /\ firstMatchRemoved deleteFoul (Fouls (redRealtimeScore arena))
                   (Fouls (redRealtimeScore arena'))
              /\ sameButFouls (redRealtimeScore arena) (redRealtimeScore arena'))).
Proof.
  split; intros args Hdecode;
    unfold RefereeDisplayWebsocketHandler_step;
    cbn [String.eqb Ascii.eqb Bool.eqb]; rewrite Hdecode; cbn [fst];
    unfold case_addFoul, case_deleteFoul.
  - split; intros Hred.
    + apply String.eqb_neq in Hred. rewrite Hred. cbn.
      split; [reflexivity |]. split; [reflexivity |]. repeat split.
    + apply String.eqb_eq in Hred. rewrite Hred. cbn.
      split; [reflexivity |]. split; [reflexivity |]. repeat split.
  - split; intros Hred.
    + apply String.eqb_neq in Hred. rewrite Hred. cbn.
      split; [reflexivity |].
      split; [apply removeFoul_firstMatchRemoved | repeat split].
    + apply String.eqb_eq in Hred. rewrite Hred. cbn.
      split; [reflexivity |].
      split; [apply removeFoul_firstMatchRemoved | repeat split].
Qed.

End RefereeProperties.

(** *** The ledger with duplicates *)

Lemma deleteFoul_removes_first_match_witness :
  exists before x after,
    Fouls (blueRealtimeScore arenaWithDuplicates) = (before ++ x :: after)%list
    /\ Forall (fun y => Foul_eq y foulG3 = false) before
    /\ Foul_eq x foulG3 = true
    /\ Fouls (blueRealtimeScore
                (fst (RefereeDisplayWebsocketHandler_step decodeFails
                        (decodeTo (deleteG3 "blue")) seconds12 "deleteFoul" DNil
                        arenaWithDuplicates)))
       = (before ++ after)%list
    /\ S (List.length
            (Fouls (blueRealtimeScore
                      (fst (RefereeDisplayWebsocketHandler_step decodeFails
                              (decodeTo (deleteG3 "blue")) seconds12 "deleteFoul"
                              DNil arenaWithDuplicates)))))
       = 4%nat.
Proof.
  exact (proj1
           (deleteFoul_removes_first_match decodeFails (decodeTo (deleteG3 "blue"))
              seconds12 DNil (deleteG3 "blue") arenaWithDuplicates eq_refl)
           (ex_intro _ foulG3 (conj (or_intror (or_introl eq_refl)) eq_refl))).
Defined.

Example deleteFoul_with_duplicates :
  Fouls (blueRealtimeScore
           (fst (RefereeDisplayWebsocketHandler_step decodeFails
                   (decodeTo (deleteG3 "blue")) seconds12 "deleteFoul" DNil
                   arenaWithDuplicates)))
  = [foulG12; foulG12; foulG3].
Proof. reflexivity. Qed.

Example deleteFoul_absent :
  fst (RefereeDisplayWebsocketHandler_step decodeFails
         (decodeTo (deleteG3 "red")) seconds12 "deleteFoul" DNil
         arenaWithDuplicates)
  = arenaWithDuplicates.
Proof. reflexivity. Qed.

Lemma foul_alliance_selection_witness :
  redRealtimeScore
    (fst (RefereeDisplayWebsocketHandler_step (decodeTo (addG3 "")) decodeFails
            seconds12 "addFoul" DNil arenaWithDuplicates))
  = redRealtimeScore arenaWithDuplicates
  /\ Fouls
       (blueRealtimeScore
          (fst (RefereeDisplayWebsocketHandler_step (decodeTo (addG3 ""))
                  decodeFails seconds12 "addFoul" DNil arenaWithDuplicates)))
     = [mkFoul 1114 "G12" true seconds12; mkFoul 254 "G3" false seconds12;
        mkFoul 1114 "G12" true seconds12; mkFoul 254 "G3" false seconds12;
        mkFoul 254 "G3" false seconds12].
Proof.
  pose proof (proj1
                (proj1 (foul_alliance_selection (decodeTo (addG3 "")) decodeFails
                          seconds12 DNil arenaWithDuplicates)
                   (addG3 "") eq_refl)
                ltac:(discriminate)) as H.
  cbv zeta in H. destruct H as (Hred & Hblue & _).
  split; [exact Hred | exact Hblue].
Defined.

Example addFoul_other_alliances_are_blue :
  forall alliance, In alliance ["blue"; ""; "Red"; "RED"; "green"; " red"] ->
    redRealtimeScore
      (fst (RefereeDisplayWebsocketHandler_step (decodeTo (addG3 alliance))
              decodeFails seconds12 "addFoul" DNil arenaWithDuplicates))
    = redRealtimeScore arenaWithDuplicates.
Proof.
  intros alliance H. cbn in H.
  repeat (destruct H as [<- | H]; [reflexivity |]). contradiction.
Qed.

Example commitMatch_on_fresh_arena :
  fst (RefereeDisplayWebsocketHandler_step (@decodeFails AddFoulArgs)
         (@decodeFails DeleteFoulArgs) seconds12 "commitMatch" DNil
         (mkArena NewRealtimeScore NewRealtimeScore))
  = mkArena (set_FoulsCommitted true NewRealtimeScore)
            (set_FoulsCommitted true NewRealtimeScore).
Proof. reflexivity. Qed.

(** * Further properties of the handlers *)

(** ** The switch of the scoring display, case by case *)

(** A message of the scoring display takes one of three ways: the preload
    case, one of the twelve cases that end in the write of the score, or the
    default case. *)
Lemma step_classify (messageType : string) (data : Data) (s : RealtimeScore) :
  (messageType = "preload"
   /\ ScoringDisplayWebsocketHandler_step messageType data s
      = case_preload "preload" data s)
  \/ (exists f,
        In (messageType, f) scoringCases
        /\ ScoringDisplayWebsocketHandler_step messageType data s = echo (f s))
  \/ (~ In messageType scoringTypes
      /\ ScoringDisplayWebsocketHandler_step messageType data s
         = (s, WriteError (invalidType messageType))).
Proof.
  unfold ScoringDisplayWebsocketHandler_step.
  destruct (String.eqb_spec messageType "preload") as [-> | ?];
    [left; split; reflexivity |].
  repeat match goal with
         | |- context [String.eqb messageType ?k] =>
             destruct (String.eqb_spec messageType k) as [-> | ?];
             [right; left; eexists; split; revgoals; [reflexivity | cbn; tauto] |]
         end.
  right; right. split; [| reflexivity].
  intros Hin. cbn in Hin. intuition congruence.
Qed.

Lemma scoringCases_each (Q : (RealtimeScore -> RealtimeScore) -> Prop) :
  Q case_mobility -> Q case_scoredHighHot -> Q case_scoredHigh ->
  Q case_scoredLowHot -> Q case_scoredLow -> Q case_assist -> Q case_truss ->
  Q case_catch -> Q case_deadBall -> Q case_commit -> Q case_commitMatch ->
  Q case_undo ->
  forall messageType f, In (messageType, f) scoringCases -> Q f.
Proof.
  intros ? ? ? ? ? ? ? ? ? ? ? ? messageType f Hin. cbn in Hin.
  repeat (destruct Hin as [Heq | Hin];
          [inversion Heq; subst; assumption |]).
  contradiction.
Qed.

Lemma case_preload_cases (data : Data) (s : RealtimeScore) :
  (AutoCommitted s = false
   /\ exists v, fst (case_preload "preload" data s) = set_AutoPreloadedBalls v s)
  \/ fst (case_preload "preload" data s) = s.
Proof.
  unfold case_preload. destruct (AutoCommitted s) eqn:Hauto; cbn [negb];
    [right; reflexivity |].
  destruct (asString data) as [str |]; [| right; reflexivity].
  destruct (strconv.Atoi str) as [n [e |]]; left; split; try reflexivity;
    exists n; reflexivity.
Qed.

(** A relation between the score before and after that every case keeps, is
    kept by every message and every sequence of messages. The preload case
    writes the count only while autonomous is open. *)
Section Relation.

Variable R : RealtimeScore -> RealtimeScore -> Prop.

Hypothesis R_refl : forall s, R s s.
Hypothesis R_trans : forall s1 s2 s3, R s1 s2 -> R s2 s3 -> R s1 s3.
Hypothesis R_preload :
  forall v s, AutoCommitted s = false -> R s (set_AutoPreloadedBalls v s).
Hypothesis R_cases :
  forall messageType f, In (messageType, f) scoringCases -> forall s, R s (f s).

Lemma R_step (s : RealtimeScore) (m : Message) : R s (scoringStep s m).
Proof.
  destruct m as [messageType data]. unfold scoringStep. cbn [fst snd].
  destruct (step_classify messageType data s)
    as [[_ ->] | [[f [Hin ->]] | [_ ->]]].
  - destruct (case_preload_cases data s) as [[Hauto [v ->]] | ->];
      [now apply R_preload | apply R_refl].
  - unfold echo. cbn [fst]. now apply (R_cases messageType).
  - apply R_refl.
Qed.

Lemma R_run (ms : list Message) (s : RealtimeScore) : R s (scoringRun s ms).
Proof.
  revert s. induction ms as [| m ms IH]; intros s; [apply R_refl |].
  cbn. eapply R_trans; [apply R_step | apply IH].
Qed.

End Relation.

(** Unfold the twelve cases and follow every branch. *)
Ltac unfold_cases :=
  unfold case_mobility, case_scoredHighHot, case_scoredHigh, case_scoredLowHot,
    case_scoredLow, case_assist, case_truss, case_catch, case_deadBall,
    case_commit, case_commitMatch, case_undo.

Ltac by_cases tac :=
  let f := fresh "f" in
  let Hin := fresh "Hin" in
  intros ? f Hin; pattern f; eapply scoringCases_each; [.. | exact Hin];
  cbv beta; intro; unfold_cases; repeat split_if; tac.

(** ** The phase *)

(** X1. The two commit flags never go back: after any sequence of messages
    a flag that was set is still set. From a fresh score the teleop flag is
    never set without the autonomous one, so the phase is always one of
    AutoOpen, TeleopOpen and MatchCommitted. *)
Theorem commit_flags_never_reset (ms : list Message) (s : RealtimeScore) :
  (AutoCommitted s = true -> AutoCommitted (scoringRun s ms) = true)
  /\ (TeleopCommitted s = true -> TeleopCommitted (scoringRun s ms) = true)
  /\ (TeleopCommitted (scoringRun NewRealtimeScore ms) = true ->
      AutoCommitted (scoringRun NewRealtimeScore ms) = true).
Proof.
  assert (Hmono : forall s0,
             (AutoCommitted s0 = true -> AutoCommitted (scoringRun s0 ms) = true)
             /\ (TeleopCommitted s0 = true ->
                 TeleopCommitted (scoringRun s0 ms) = true)).
  { intros s0.
    apply (R_run (fun a b =>
                    (AutoCommitted a = true -> AutoCommitted b = true)
                    /\ (TeleopCommitted a = true -> TeleopCommitted b = true))).
    - intros; split; auto.
    - intros s1 s2 s3 [H1 H2] [H3 H4]. split; auto.
    - intros v s1 _. split; auto.
    - by_cases ltac:(cbn; split; auto). }
  split; [apply Hmono |]. split; [apply Hmono |].
  apply (Inv_run (fun s0 => TeleopCommitted s0 = true -> AutoCommitted s0 = true));
    try (intros s0 H; unfold_cases; repeat split_if; cbn; auto; fail).
  cbn. discriminate.
Qed.

Lemma commit_flags_never_reset_witness :
  AutoCommitted
    (scoringRun (set_AutoCommitted true NewRealtimeScore)
       [("undo", DNil); ("preload", DString "3"); ("bogus", DNil)]) = true.
Proof.
  exact (proj1 (commit_flags_never_reset
                  [("undo", DNil); ("preload", DString "3"); ("bogus", DNil)]
                  (set_AutoCommitted true NewRealtimeScore)) eq_refl).
Defined.

(** ** The scoring display and the fouls *)

(** X2. No message of the scoring display, commitMatch included, changes
    the foul list or the fouls-committed flag of the score. *)
Theorem scoring_leaves_fouls (ms : list Message) (s : RealtimeScore) :
  Fouls (scoringRun s ms) = Fouls s
  /\ FoulsCommitted (scoringRun s ms) = FoulsCommitted s.
Proof.
  apply (R_run (fun a b => Fouls b = Fouls a
                           /\ FoulsCommitted b = FoulsCommitted a)).
  - intros; split; reflexivity.
  - intros s1 s2 s3 [H1 H2] [H3 H4]. split; congruence.
  - intros v s1 _. split; reflexivity.
  - by_cases ltac:(cbn; split; reflexivity).
Qed.

(** ** Which messages are answered with an error *)

Lemma scoringCases_types (messageType : string)
    (f : RealtimeScore -> RealtimeScore) :
  In (messageType, f) scoringCases ->
  In messageType scoringTypes /\ messageType <> "preload".
Proof.
  intros Hin. cbn in Hin.
  repeat (destruct Hin as [Heq | Hin];
          [inversion Heq; subst; split; [cbn; tauto | discriminate] |]).
  contradiction.
Qed.

(** X3. The scoring display answers with an error in two cases only. A
    message whose type is not one of the thirteen of the switch gets the
    invalid-type error and leaves the score as it is. A preload in AutoOpen
    whose payload does not parse gets the parse error. Every other message,
    a command out of its phase included, is answered with the score as it
    is after the message. *)
Theorem scoring_errors (messageType : string) (data : Data) (s : RealtimeScore) :
  let r := ScoringDisplayWebsocketHandler_step messageType data s in
  (~ In messageType scoringTypes ->
     r = (s, WriteError (invalidType messageType)))
  /\ (messageType = "preload" -> AutoCommitted s = false ->
      parsesAsInt data = false ->
        snd r = WriteError (parseFailure "preload"))
  /\ (In messageType scoringTypes ->
      messageType <> "preload" \/ AutoCommitted s = true
      \/ parsesAsInt data = true ->
        snd r = WriteScore (fst r)).
Proof.
  intros r. subst r.
  destruct (step_classify messageType data s)
    as [[-> ->] | [[f [Hin ->]] | [Hnot ->]]].
  - unfold case_preload, parsesAsInt. split; [intros H; contradiction H; cbn; tauto |].
    split.
    + intros _ ->. cbn [negb].
      destruct (asString data) as [str |]; [| reflexivity].
      destruct (strconv.Atoi str) as [n [e |]]; cbn; [reflexivity | discriminate].
    + intros _ [H | [-> | H]]; [now contradiction H | reflexivity |].
      destruct (negb (AutoCommitted s)); [| reflexivity].
      destruct (asString data) as [str |]; [| discriminate].
      destruct (strconv.Atoi str) as [n [e |]]; cbn in *; [discriminate | reflexivity].
  - destruct (scoringCases_types _ _ Hin) as [Hknown Hpre].
    split; [intros H; now contradiction H |].
    split; [intros H; now contradiction Hpre | reflexivity].
  - split; [reflexivity |].
    split; [intros ->; contradiction Hnot; cbn; tauto |].
    intros H. now contradiction Hnot.
Qed.

Lemma scoring_errors_witness :
  ScoringDisplayWebsocketHandler_step "Commit" DNil NewRealtimeScore
  = (NewRealtimeScore, WriteError "Invalid message type 'Commit'.").
Proof.
  refine (proj1 (scoring_errors "Commit" DNil NewRealtimeScore) _).
  cbn. intros H.
  repeat (destruct H as [H | H]; [discriminate |]). exact H.
Defined.

(** ** What each phase closes *)

Lemma step_not_preload (messageType : string) (data : Data) (s : RealtimeScore) :
  messageType <> "preload" ->
  AutoPreloadedBalls (fst (ScoringDisplayWebsocketHandler_step messageType data s))
  = AutoPreloadedBalls s.
Proof.
  intros Hpre.
  destruct (step_classify messageType data s)
    as [[H _] | [[f [Hin ->]] | [_ ->]]]; [contradiction | | reflexivity].
  unfold echo. cbn [fst]. revert s. revert messageType f Hin Hpre.
  intros messageType f Hin _. revert messageType f Hin.
  by_cases ltac:(reflexivity).
Qed.

(** X4. Only preload changes the count of preloaded balls: a sequence of
    messages without a preload leaves it as it is. undo in particular never
    takes a preload back. *)
Theorem only_preload_changes_preloaded_balls (ms : list Message)
    (s : RealtimeScore) :
  Forall (fun m => fst m <> "preload") ms ->
  AutoPreloadedBalls (scoringRun s ms) = AutoPreloadedBalls s.
Proof.
  intros Hall. revert s. induction Hall as [| [messageType data] ms Hm _ IH];
    intros s; [reflexivity |].
  cbn [scoringRun fold_left]. fold (scoringRun (scoringStep s (messageType, data)) ms).
  rewrite IH. unfold scoringStep. cbn [fst snd]. now apply step_not_preload.
Qed.

Lemma only_preload_changes_preloaded_balls_witness :
  AutoPreloadedBalls
    (scoringRun (scoringRun NewRealtimeScore [("preload", DString "3")])
       [("mobility", DNil); ("undo", DNil); ("undo", DNil); ("commit", DNil)])
  = 3.
Proof.
  refine (only_preload_changes_preloaded_balls
            [("mobility", DNil); ("undo", DNil); ("undo", DNil); ("commit", DNil)]
            (scoringRun NewRealtimeScore [("preload", DString "3")]) _).
  repeat constructor; discriminate.
Defined.

(** X5. Once autonomous is committed its totals are final: no sequence of
    messages, undo and preload included, changes the preloaded balls, the
    mobility bonuses or the four autonomous goal counters. *)
Theorem auto_totals_final (ms : list Message) (s : RealtimeScore) :
  AutoCommitted s = true ->
  autoTotals (scoringRun s ms) = autoTotals s.
Proof.
  intros Hauto.
  apply (R_run (fun a b => AutoCommitted a = true ->
                           AutoCommitted b = true /\ autoTotals b = autoTotals a));
    [ | | | | exact Hauto ].
  - intros; split; auto.
  - intros s1 s2 s3 H12 H23 H1. destruct (H12 H1) as [H2 E12].
    destruct (H23 H2) as [H3 E23]. split; congruence.
  - intros v s1 H1 H2. congruence.
  - by_cases ltac:(intros Ha; cbn in *; rewrite ?Ha in *; cbn in *;
                   try discriminate; split; reflexivity).
Qed.

Lemma auto_totals_final_witness :
  autoTotals
    (scoringRun
       (scoringRun NewRealtimeScore
          [("preload", DString "2"); ("scoredHigh", DNil); ("commit", DNil)])
       [("undo", DNil); ("preload", DString "9"); ("scoredHigh", DNil);
        ("mobility", DNil); ("commit", DNil)])
  = [2; 0; 0; 1; 0; 0].
Proof.
  exact (auto_totals_final
           [("undo", DNil); ("preload", DString "9"); ("scoredHigh", DNil);
            ("mobility", DNil); ("commit", DNil)]
           (scoringRun NewRealtimeScore
              [("preload", DString "2"); ("scoredHigh", DNil); ("commit", DNil)])
           eq_refl).
Defined.

Lemma step_after_match (messageType : string) (data : Data) (s : RealtimeScore) :
  AutoCommitted s = true -> TeleopCommitted s = true ->
  messageType <> "commitMatch" ->
  fst (ScoringDisplayWebsocketHandler_step messageType data s) = s.
Proof.
  intros Hauto Hteleop Hcm.
  destruct (step_classify messageType data s)
    as [[_ ->] | [[f [Hin ->]] | [_ ->]]]; [| | reflexivity].
  - unfold case_preload. rewrite Hauto. reflexivity.
  - unfold echo. cbn [fst]. cbn in Hin.
    repeat (destruct Hin as [Heq | Hin];
            [inversion Heq; subst; unfold_cases; rewrite ?Hauto, ?Hteleop;
             cbn; try reflexivity; now contradiction Hcm |]).
    contradiction.
Qed.

(** X6. Once the match is committed the score is closed to every message
    but commitMatch: a sequence of messages of any other type, known or not,
    leaves the whole score as it is. *)
Theorem committed_match_is_closed (ms : list Message) (s : RealtimeScore) :
  AutoCommitted s = true -> TeleopCommitted s = true ->
  Forall (fun m => fst m <> "commitMatch") ms ->
  scoringRun s ms = s.
Proof.
  intros Hauto Hteleop Hall.
  induction Hall as [| [messageType data] ms Hm _ IH]; [reflexivity |].
  cbn [scoringRun fold_left]. unfold scoringStep at 2. cbn [fst snd].
  rewrite (step_after_match messageType data s Hauto Hteleop Hm). exact IH.
Qed.

Lemma committed_match_is_closed_witness :
  scoringRun (scoringRun NewRealtimeScore [("assist", DNil); ("commitMatch", DNil)])
    [("undo", DNil); ("scoredHigh", DNil); ("preload", DString "1");
     ("commit", DNil); ("assist", DNil); ("deadBall", DNil)]
  = scoringRun NewRealtimeScore [("assist", DNil); ("commitMatch", DNil)].
Proof.
  refine (committed_match_is_closed
            [("undo", DNil); ("scoredHigh", DNil); ("preload", DString "1");
             ("commit", DNil); ("assist", DNil); ("deadBall", DNil)]
            (scoringRun NewRealtimeScore [("assist", DNil); ("commitMatch", DNil)])
            eq_refl eq_refl _).
  repeat constructor; discriminate.
Defined.

(** ** commitMatch, more than once *)

Lemma commitMatch_again (n : nat) :
  forall s : RealtimeScore,
    scoringRun s (repeat ("commitMatch", DNil) n)
    = match n with
      | O => s
      | S _ =>
          set_CurrentScore
            (set_Cycles
               (Cycles (CurrentScore s)
                ++ (if Cycle_eq (CurrentCycle s) Cycle_zero then []
                    else repeat (CurrentCycle s) n))
               (CurrentScore s))
            (set_TeleopCommitted true (set_AutoCommitted true s))
      end.
Proof.
  induction n as [| n IH]; intros s; [reflexivity |].
  cbn [repeat scoringRun fold_left].
  fold (scoringRun (scoringStep s ("commitMatch", DNil)) (repeat ("commitMatch", DNil) n)).
  rewrite IH. unfold scoringStep. cbn [fst snd]. rewrite step_commitMatch.
  unfold echo, case_commitMatch. cbn [fst].
  destruct s as [[m hh h lh l ch cl cd cs] c p ac tc fl fc ua uc].
  destruct n as [| n]; cbn; destruct (Cycle_eq c Cycle_zero) eqn:Hz; cbn;
    rewrite ?Hz; cbn; unfold push; rewrite ?app_nil_r, <- ?app_assoc; reflexivity.
Qed.

(** X7. commitMatch is not guarded by the commit flags and does not reset
    the current cycle: each commitMatch appends the current cycle again when
    it is not the zero cycle, so after n of them the committed list ends
    with n copies of it. With the zero cycle, commitMatch only sets the two
    flags. The current cycle, both undo stacks, the counters, the preloaded
    balls and the fouls are left as they are. *)
Theorem commitMatch_repeats_last_cycle (n : nat) (s : RealtimeScore) :
  let s' := scoringRun s (repeat ("commitMatch", DNil) (S n)) in
  Cycles (CurrentScore s')
  = (Cycles (CurrentScore s)
     ++ (if Cycle_eq (CurrentCycle s) Cycle_zero then []
         else repeat (CurrentCycle s) (S n)))%list
  /\ CurrentCycle s' = CurrentCycle s
  /\ AutoCommitted s' = true
  /\ TeleopCommitted s' = true
  /\ undoCycles s' = undoCycles s
  /\ undoAutoScores s' = undoAutoScores s
  /\ AutoPreloadedBalls s' = AutoPreloadedBalls s
  /\ Fouls s' = Fouls s
  /\ FoulsCommitted s' = FoulsCommitted s
  /\ AutoMobilityBonuses (CurrentScore s') = AutoMobilityBonuses (CurrentScore s)
  /\ AutoHighHot (CurrentScore s') = AutoHighHot (CurrentScore s)
  /\ AutoHigh (CurrentScore s') = AutoHigh (CurrentScore s)
  /\ AutoLowHot (CurrentScore s') = AutoLowHot (CurrentScore s)
  /\ AutoLow (CurrentScore s') = AutoLow (CurrentScore s)
  /\ AutoClearHigh (CurrentScore s') = AutoClearHigh (CurrentScore s)
  /\ AutoClearLow (CurrentScore s') = AutoClearLow (CurrentScore s)
  /\ AutoClearDead (CurrentScore s') = AutoClearDead (CurrentScore s).
Proof.
  intros s'. subst s'. rewrite commitMatch_again. cbn. repeat split.
Qed.

Example commitMatch_twice :
  Cycles (CurrentScore
            (scoringRun NewRealtimeScore
               [("commit", DNil); ("truss", DNil); ("commitMatch", DNil);
                ("commitMatch", DNil)]))
  = [set_Truss true Cycle_zero; set_Truss true Cycle_zero].
Proof. reflexivity. Qed.

(** ** What undo cannot take back *)

(** X8. A committed teleop cycle cannot be undone: in TeleopOpen, after the
    commit of a cycle with an outcome, undo is a no-op (the cycle-undo stack
    has been emptied and the auto-undo stack is out of reach). After the
    commit that ends autonomous, undo leaves the autonomous score and the
    auto-undo stack as they are. *)
Theorem commit_cannot_be_undone (data1 data2 : Data) (s : RealtimeScore) :
  let committed := fst (ScoringDisplayWebsocketHandler_step "commit" data1 s) in
  let undone := fst (ScoringDisplayWebsocketHandler_step "undo" data2 committed) in
  (AutoCommitted s = true -> TeleopCommitted s = false ->
   hasOutcome (CurrentCycle s) = true -> undone = committed)
  /\ (AutoCommitted s = false ->
      CurrentScore undone = CurrentScore s
      /\ undoAutoScores undone = undoAutoScores s
      /\ AutoCommitted undone = true).
Proof.
  intros committed undone. subst committed undone.
  rewrite step_undo, step_commit. unfold echo. cbn [fst]. split.
  - intros Hauto Hteleop Hout. apply undo_nothing.
    + left. unfold case_commit. rewrite Hauto. cbn [negb]. rewrite Hteleop, Hout.
      cbn [negb]. repeat split_if; cbn; exact Hauto.
    + right. unfold case_commit. rewrite Hauto. cbn [negb]. rewrite Hteleop, Hout.
      reflexivity.
  - intros Hauto. unfold case_commit. rewrite Hauto. cbn [negb].
    unfold case_undo. cbn. repeat split_if; cbn; repeat split.
Qed.

Lemma commit_cannot_be_undone_witness :
  fst (ScoringDisplayWebsocketHandler_step "undo" DNil
         (fst (ScoringDisplayWebsocketHandler_step "commit" DNil
                 (leftoverScenario 2))))
  = fst (ScoringDisplayWebsocketHandler_step "commit" DNil (leftoverScenario 2)).
Proof.
  exact (proj1 (commit_cannot_be_undone DNil DNil (leftoverScenario 2))
           eq_refl eq_refl eq_refl).
Defined.

(** ** The leftover balls run out *)

Lemma farFromOverflow_exact (s : RealtimeScore) :
  farFromOverflow s -> leftoverBalls s = leftoverExact s.
Proof.
  intros H. unfold leftoverExact. apply leftoverBalls_exact. cbv zeta.
  unfold farFromOverflow in H.
  repeat match goal with
         | H : Forall _ (_ :: _) |- _ => inversion H; subst; clear H
         end.
  unfold GoInt.inRange, GoInt.minInt, GoInt.maxInt. lia.
Qed.

Lemma add_one_far (z : Z) : - 2 ^ 59 <= z <= 2 ^ 59 -> GoInt.add z 1 = z + 1.
Proof.
  intros H. unfold GoInt.add. apply wrap_inRange.
  unfold GoInt.inRange, GoInt.minInt, GoInt.maxInt. lia.
Qed.

(** X9. Each commit that is counted as a leftover ball uses one leftover
    ball up. In TeleopOpen, with counters far from overflow and an outcome
    on the current cycle: when balls are left over, commit lowers their
    number by exactly one and commits no cycle; when none is left, commit
    appends one cycle and the number stays. *)
Theorem leftover_balls_run_out (data : Data) (s : RealtimeScore) :
  AutoCommitted s = true -> TeleopCommitted s = false ->
  hasOutcome (CurrentCycle s) = true ->
  farFromOverflow s ->
  let s' := fst (ScoringDisplayWebsocketHandler_step "commit" data s) in
  (0 < leftoverExact s ->
     leftoverExact s' = leftoverExact s - 1
     /\ Cycles (CurrentScore s') = Cycles (CurrentScore s))
  /\ (leftoverExact s <= 0 ->
        leftoverExact s' = leftoverExact s
        /\ Cycles (CurrentScore s')
           = (Cycles (CurrentScore s) ++ [CurrentCycle s])%list).
Proof.
  intros Hauto Hteleop Hout Hfar s'. subst s'.
  rewrite step_commit. unfold echo, case_commit. cbn [fst].
  rewrite Hauto, Hteleop, Hout. cbn [negb].
  rewrite (farFromOverflow_exact s Hfar).
  unfold farFromOverflow in Hfar.
  repeat match goal with
         | H : Forall _ (_ :: _) |- _ => inversion H; subst; clear H
         end.
  destruct (Z.ltb_spec 0 (leftoverExact s)) as [Hpos | Hnon].
  - split; [intros _ | intros; lia].
    destruct (ScoredHigh (CurrentCycle s)); [| destruct (ScoredLow (CurrentCycle s))];
      unfold leftoverExact; cbn; rewrite add_one_far by assumption;
      (split; [lia | reflexivity]).
  - split; [intros; lia | intros _].
    unfold leftoverExact. cbn. split; reflexivity.
Qed.

Lemma leftover_balls_run_out_witness :
  leftoverExact (leftoverScenario 1) = 1
  /\ leftoverExact
       (fst (ScoringDisplayWebsocketHandler_step "commit" DNil (leftoverScenario 1)))
     = 0.
Proof.
  split; [reflexivity |].
  refine (proj1 (proj1 (leftover_balls_run_out DNil (leftoverScenario 1)
                          eq_refl eq_refl eq_refl _) _)).
  - unfold farFromOverflow. repeat constructor; cbn; lia.
  - reflexivity.
Defined.

(** ** Teleop leaves no trace in autonomous *)

Lemma AutoOnlyInv_run (ms : list Message) (s : RealtimeScore) :
  AutoOnlyInv s -> AutoOnlyInv (scoringRun s ms).
Proof.
  apply Inv_run; clear;
    try (intros s [Hc Hu]; unfold_cases; repeat split_if; split;
         cbn in *;
         try (intros Hopen; rewrite ?Hopen in *; cbn in * );
         try discriminate;
         first [ assumption
               | apply Hc; assumption
               | now apply (Hc eq_refl)
               | apply push_Forall;
                 [assumption
                 | apply Hc; destruct (AutoCommitted s); [discriminate | reflexivity]]
               | apply top_Forall;
                 [assumption
                 | apply Hc; destruct (AutoCommitted s); [discriminate | reflexivity]]
               | apply pop_Forall; assumption
               | destruct (AutoCommitted s); discriminate ]; fail).
  intros v s [Hc Hu]. split; assumption.
Qed.

(** X10. While autonomous is open nothing of teleop is in the score: from a
    fresh score, after any sequence of messages that leaves the phase at
    AutoOpen, the committed cycle list is empty and the three cleared-ball
    counters are zero. The same holds of every snapshot on the auto-undo
    stack, in every phase, so no two copies of the cycle slice ever differ. *)
Theorem nothing_of_teleop_in_AutoOpen (ms : list Message) :
  let s := scoringRun NewRealtimeScore ms in
  (AutoCommitted s = false ->
     Cycles (CurrentScore s) = []
     /\ AutoClearHigh (CurrentScore s) = 0
     /\ AutoClearLow (CurrentScore s) = 0
     /\ AutoClearDead (CurrentScore s) = 0)
  /\ Forall (fun a => Cycles a = [] /\ AutoClearHigh a = 0 /\ AutoClearLow a = 0
                      /\ AutoClearDead a = 0) (undoAutoScores s).
Proof.
  apply (AutoOnlyInv_run ms NewRealtimeScore).
  split; [intros _; repeat split | constructor].
Qed.

Lemma nothing_of_teleop_in_AutoOpen_witness :
  Cycles (CurrentScore
            (scoringRun NewRealtimeScore
               [("scoredHigh", DNil); ("deadBall", DNil); ("undo", DNil);
                ("undo", DNil); ("scoredLowHot", DNil)])) = [].
Proof.
  refine (proj1 (proj1 (nothing_of_teleop_in_AutoOpen
                          [("scoredHigh", DNil); ("deadBall", DNil); ("undo", DNil);
                           ("undo", DNil); ("scoredLowHot", DNil)]) _)).
  reflexivity.
Defined.

(** ** Every cycle is well formed *)

(** A property of cycles that holds of the zero cycle and that the six
    writes to the current cycle keep, holds of every cycle of every score
    reached from a fresh one. *)
Section CycleProperty.

Variable P : Cycle -> Prop.

Hypothesis P_zero : P Cycle_zero.
Hypothesis P_high : forall c, P c -> P (set_outcome true false false c).
Hypothesis P_low : forall c, P c -> P (set_outcome false true false c).
Hypothesis P_dead : forall c, P c -> P (set_outcome false false true c).
Hypothesis P_assist :
  forall c, P c -> Assists c < 3 -> P (set_Assists (GoInt.add (Assists c) 1) c).
Hypothesis P_truss : forall c, P c -> P (set_Truss true c).
Hypothesis P_catch : forall c, P c -> Truss c = true -> P (set_Catch true c).

Lemma everyCycle_snapshotCycle (s : RealtimeScore) (c : Cycle) :
  everyCycle P s -> P c -> everyCycle P (set_CurrentCycle c (snapshotCycle s)).
Proof.
  intros (Hc & Hu & Hs & Ha) Hnew. repeat split; cbn; try assumption.
  now apply push_Forall.
Qed.

Lemma everyCycle_snapshotAuto (s : RealtimeScore) (a : Score) :
  everyCycle P s -> Cycles a = Cycles (CurrentScore s) ->
  everyCycle P (set_CurrentScore a (snapshotAuto s)).
Proof.
  intros (Hc & Hu & Hs & Ha) Hsame. repeat split; cbn; try assumption.
  - now rewrite Hsame.
  - now apply push_Forall.
Qed.

Lemma everyCycle_run (ms : list Message) (s : RealtimeScore) :
  everyCycle P s -> everyCycle P (scoringRun s ms).
Proof.
  apply Inv_run; clear ms s.
  - intros v s H. exact H.
  - intros s H. unfold case_mobility. split_if; [| exact H].
    now apply everyCycle_snapshotAuto.
  - intros s H. unfold case_scoredHighHot. split_if; [| exact H].
    now apply everyCycle_snapshotAuto.
  - intros s H. unfold case_scoredHigh.
    destruct (negb (AutoCommitted s)); [now apply everyCycle_snapshotAuto |].
    split_if; [| exact H].
    apply everyCycle_snapshotCycle; [exact H | apply P_high, H].
  - intros s H. unfold case_scoredLowHot. split_if; [| exact H].
    now apply everyCycle_snapshotAuto.
  - intros s H. unfold case_scoredLow.
    destruct (negb (AutoCommitted s)); [now apply everyCycle_snapshotAuto |].
    split_if; [| exact H].
    apply everyCycle_snapshotCycle; [exact H | apply P_low, H].
  - intros s H. unfold case_assist.
    destruct (negb (TeleopCommitted s)); cbn [andb]; [| exact H].
    destruct (Z.ltb_spec (Assists (CurrentCycle s)) 3) as [Hlt | _]; [| exact H].
    apply everyCycle_snapshotCycle; [exact H | apply P_assist; [apply H | exact Hlt]].
  - intros s H. unfold case_truss. split_if; [| exact H].
    apply everyCycle_snapshotCycle; [exact H | apply P_truss, H].
  - intros s H. unfold case_catch.
    destruct (negb (TeleopCommitted s) && negb (Catch (CurrentCycle s)));
      cbn [andb]; [| exact H].
    destruct (Truss (CurrentCycle s)) eqn:Htruss; [| exact H].
    apply everyCycle_snapshotCycle; [exact H | apply P_catch; [apply H | exact Htruss]].
  - intros s H. unfold case_deadBall. split_if; [| exact H].
    apply everyCycle_snapshotCycle; [exact H | apply P_dead, H].
  - intros s (Hc & Hu & Hs & Ha). unfold case_commit.
    repeat split_if; repeat split; cbn; try assumption; try constructor.
    now apply push_Forall.
  - intros s (Hc & Hu & Hs & Ha). unfold case_commitMatch.
    split_if; repeat split; cbn; try assumption.
    now apply push_Forall.
  - intros s (Hc & Hu & Hs & Ha). unfold case_undo.
    repeat split_if; repeat split; cbn; try assumption.
    + apply (top_Forall (fun a => Forall P (Cycles a))); assumption.
    + now apply pop_Forall.
    + now apply top_Forall.
    + now apply pop_Forall.
Qed.

Lemma everyCycle_fresh : everyCycle P NewRealtimeScore.
Proof. repeat split; cbn; try constructor. exact P_zero. Qed.

End CycleProperty.

(** X11. The three outcome flags exclude each other on every cycle: in a
    score reached from a fresh one by any sequence of messages, the current
    cycle and every committed cycle have at most one of scoredHigh,
    scoredLow and deadBall set. *)
Theorem outcomes_exclude_each_other (ms : list Message) :
  let s := scoringRun NewRealtimeScore ms in
  exclusiveOutcome (CurrentCycle s) = true
  /\ Forall (fun c => exclusiveOutcome c = true) (Cycles (CurrentScore s)).
Proof.
  assert (H : everyCycle (fun c => exclusiveOutcome c = true)
                (scoringRun NewRealtimeScore ms)).
  { apply everyCycle_run; [| | | | | | | apply everyCycle_fresh; reflexivity];
      try reflexivity; intros c; unfold exclusiveOutcome; cbn; auto. }
  destruct H as (Hc & _ & Hs & _). split; assumption.
Qed.

(** X12. Every committed cycle is well formed: in a score reached from a
    fresh one by any sequence of messages, each cycle of the committed list
    has between 0 and 3 assists and has a catch only together with a truss;
    so has the current cycle. *)
Theorem committed_cycles_well_formed (ms : list Message) :
  let s := scoringRun NewRealtimeScore ms in
  Forall (fun c => 0 <= Assists c <= 3 /\ (Catch c = true -> Truss c = true))
    (Cycles (CurrentScore s))
  /\ (Catch (CurrentCycle s) = true -> Truss (CurrentCycle s) = true).
Proof.
  assert (H : everyCycle
                (fun c => 0 <= Assists c <= 3 /\ (Catch c = true -> Truss c = true))
                (scoringRun NewRealtimeScore ms)).
  { apply everyCycle_run;
      [cbn; split; [lia | discriminate] | | | | | |
       | apply everyCycle_fresh; cbn; split; [lia | discriminate]];
      intros c [Hb Hct]; cbn; try (split; assumption).
    - intros Hlt. split; [rewrite add_one_small; lia | assumption].
    - split; [assumption | reflexivity].
    - intros Htruss. split; [assumption | intros _; exact Htruss]. }
  destruct H as (Hc & _ & Hs & _). split; [exact Hs | apply Hc].
Qed.

(** ** The two displays do not interfere *)

(** The scoring switch never reads the fouls: it does the same to a score
    whatever its foul list and its fouls-committed flag. *)
Lemma scoringStep_set_Fouls (fouls : list Foul) (s : RealtimeScore) (m : Message) :
  scoringStep (set_Fouls fouls s) m = set_Fouls fouls (scoringStep s m).
Proof.
  destruct m as [messageType data]. unfold scoringStep. cbn [fst snd].
  unfold ScoringDisplayWebsocketHandler_step.
  repeat match goal with
         | |- context [String.eqb messageType ?k] =>
             destruct (String.eqb messageType k)
         end; unfold echo; cbn [fst]; try reflexivity;
    try (unfold_cases; unfold leftoverBalls; cbn; repeat split_if; reflexivity).
  unfold case_preload; cbn.
  destruct (negb (AutoCommitted s)); [| reflexivity].
  destruct (asString data) as [str |]; [| reflexivity].
  destruct (strconv.Atoi str) as [n [e |]]; reflexivity.
Qed.

Lemma scoringStep_set_FoulsCommitted (b : bool) (s : RealtimeScore) (m : Message) :
  scoringStep (set_FoulsCommitted b s) m = set_FoulsCommitted b (scoringStep s m).
Proof.
  destruct m as [messageType data]. unfold scoringStep. cbn [fst snd].
  unfold ScoringDisplayWebsocketHandler_step.
  repeat match goal with
         | |- context [String.eqb messageType ?k] =>
             destruct (String.eqb messageType k)
         end; unfold echo; cbn [fst]; try reflexivity;
    try (unfold_cases; unfold leftoverBalls; cbn; repeat split_if; reflexivity).
  unfold case_preload; cbn.
  destruct (negb (AutoCommitted s)); [| reflexivity].
  destruct (asString data) as [str |]; [| reflexivity].
  destruct (strconv.Atoi str) as [n [e |]]; reflexivity.
Qed.

Lemma scoringStep_Fouls (s : RealtimeScore) (m : Message) :
  Fouls (scoringStep s m) = Fouls s
  /\ FoulsCommitted (scoringStep s m) = FoulsCommitted s.
Proof.
  apply (R_step (fun a b => Fouls b = Fouls a
                            /\ FoulsCommitted b = FoulsCommitted a)).
  - intros; split; reflexivity.
  - intros v s1 _. split; reflexivity.
  - by_cases ltac:(cbn; split; reflexivity).
Qed.

(** X14. The scoring display and the referee display do not interfere: a
    scoring message (on either alliance's session) and a referee message,
    handled one after the other on the same arena, leave the same arena in
    either order. *)
Theorem scoring_and_referee_commute
    (decodeAddFoul : Data -> string + AddFoulArgs)
    (decodeDeleteFoul : Data -> string + DeleteFoulArgs)
    (score : ScorePointer) (messageType : string) (data : Data)
    (m : RefereeMessage) (arena : Arena) :
  refereeStep decodeAddFoul decodeDeleteFoul
    (fst (ScoringSession_step score messageType data arena)) m
  = fst (ScoringSession_step score messageType data
           (refereeStep decodeAddFoul decodeDeleteFoul arena m)).
Proof.
  destruct m as [time refType refData]. destruct arena as [red blue].
  unfold refereeStep, ScoringSession_step, RefereeDisplayWebsocketHandler_step.
  cbn [handledAt refereeType refereeData fst snd].
  pose proof (scoringStep_Fouls red (messageType, data)) as [Hfr Hcr].
  pose proof (scoringStep_Fouls blue (messageType, data)) as [Hfb Hcb].
  destruct (refType =? "addFoul")%string;
    [destruct (decodeAddFoul refData) as [err | args]; [reflexivity |] |].
  2: destruct (refType =? "deleteFoul")%string;
    [destruct (decodeDeleteFoul refData) as [err | args]; [reflexivity |] |].
  3: destruct (refType =? "commitMatch")%string; [| reflexivity].
  all: unfold case_addFoul, case_deleteFoul, case_commitFouls.
  1: destruct (add_Alliance args =? "red")%string.
  3: destruct (del_Alliance args =? "red")%string.
  all: destruct score;
    unfold assign, deref, set_redRealtimeScore, set_blueRealtimeScore;
    cbn [fst snd redRealtimeScore blueRealtimeScore];
    change (fst (ScoringDisplayWebsocketHandler_step messageType data ?x))
      with (scoringStep x (messageType, data));
    rewrite ?scoringStep_set_Fouls, ?scoringStep_set_FoulsCommitted,
      ?Hfr, ?Hfb, ?Hcr, ?Hcb;
    reflexivity.
Qed.

(** ** The referee display: errors, frame, commit *)

Section RefereeFurther.

Variable decodeAddFoul : Data -> string + AddFoulArgs.
Variable decodeDeleteFoul : Data -> string + DeleteFoulArgs.

Local Abbreviation refStep :=
  (RefereeDisplayWebsocketHandler_step decodeAddFoul decodeDeleteFoul).
Local Abbreviation refRun := (refereeRun decodeAddFoul decodeDeleteFoul).

(** X15. The referee display answers either with a reload or with an
    error, and an error never comes with a change: when the payload does not
    decode, or the type is none of addFoul, deleteFoul and commitMatch, the
    arena is left as it is. A decoded addFoul or deleteFoul and every
    commitMatch are answered with a reload, also when nothing changed. *)
Theorem referee_errors_change_nothing
    (matchTimeSec : float64) (messageType : string) (data : Data) (arena : Arena) :
  let r := refStep matchTimeSec messageType data arena in
  (forall message, snd r = RefereeError message -> fst r = arena)
  /\ (snd r = WriteReload <->
      (messageType = "addFoul" /\ exists args, decodeAddFoul data = inr args)
      \/ (messageType = "deleteFoul" /\ exists args, decodeDeleteFoul data = inr args)
      \/ messageType = "commitMatch").
Proof.
  intros r. subst r. unfold RefereeDisplayWebsocketHandler_step.
  destruct (String.eqb_spec messageType "addFoul") as [-> | Hadd].
  { destruct (decodeAddFoul data) as [err | args]; cbn [fst snd]; split;
      try (intros; reflexivity); try (intros; discriminate).
    - split; [discriminate |].
      intros [[_ [a Ha]] | [[Hd _] | Hc]]; discriminate.
    - split; [intros _; left; split; [reflexivity | now exists args] | reflexivity]. }
  destruct (String.eqb_spec messageType "deleteFoul") as [-> | Hdel].
  { destruct (decodeDeleteFoul data) as [err | args]; cbn [fst snd]; split;
      try (intros; reflexivity); try (intros; discriminate).
    - split; [discriminate |].
      intros [[Hd _] | [[_ [a Ha]] | Hc]]; discriminate.
    - split; [intros _; right; left; split; [reflexivity | now exists args]
             | reflexivity]. }
  destruct (String.eqb_spec messageType "commitMatch") as [-> | Hcm];
    cbn [fst snd]; split; try (intros; reflexivity); try (intros; discriminate).
  - split; [intros _; right; right; reflexivity | reflexivity].
  - split; [discriminate |].
    intros [[H _] | [[H _] | H]]; contradiction.
Qed.

Lemma refStep_frame (matchTimeSec : float64) (messageType : string) (data : Data)
    (arena : Arena) :
  let arena' := fst (refStep matchTimeSec messageType data arena) in
  withoutFouls (redRealtimeScore arena') = withoutFouls (redRealtimeScore arena)
  /\ withoutFouls (blueRealtimeScore arena') = withoutFouls (blueRealtimeScore arena).
Proof.
  unfold RefereeDisplayWebsocketHandler_step.
  destruct (messageType =? "addFoul")%string;
    [destruct (decodeAddFoul data); [split; reflexivity |] |].
  2: destruct (messageType =? "deleteFoul")%string;
    [destruct (decodeDeleteFoul data); [split; reflexivity |] |].
  3: destruct (messageType =? "commitMatch")%string; [| split; reflexivity].
  all: unfold case_addFoul, case_deleteFoul, case_commitFouls;
    repeat split_if; split; reflexivity.
Qed.

(** X16. No referee message touches the scoring side of either alliance:
    after any sequence of referee messages both scores differ from what they
    were in their foul list and their fouls-committed flag at most; the
    commitMatch of the referee display does not commit the match score. *)
Theorem referee_leaves_scoring (ms : list RefereeMessage) (arena : Arena) :
  withoutFouls (redRealtimeScore (refRun arena ms))
  = withoutFouls (redRealtimeScore arena)
  /\ withoutFouls (blueRealtimeScore (refRun arena ms))
     = withoutFouls (blueRealtimeScore arena).
Proof.
  revert arena. induction ms as [| m ms IH]; intros arena; [split; reflexivity |].
  cbn [refereeRun fold_left].
  destruct (IH (refereeStep decodeAddFoul decodeDeleteFoul arena m)) as [Hr Hb].
  destruct (refStep_frame (handledAt m) (refereeType m) (refereeData m) arena)
    as [Hr1 Hb1].
  unfold refereeRun in Hr, Hb. unfold refereeStep in *.
  split; congruence.
Qed.

Lemma refStep_FoulsCommitted (matchTimeSec : float64) (messageType : string)
    (data : Data) (arena : Arena) :
  let arena' := fst (refStep matchTimeSec messageType data arena) in
  (messageType = "commitMatch" ->
     FoulsCommitted (redRealtimeScore arena') = true
     /\ FoulsCommitted (blueRealtimeScore arena') = true)
  /\ (messageType <> "commitMatch" ->
        FoulsCommitted (redRealtimeScore arena')
        = FoulsCommitted (redRealtimeScore arena)
        /\ FoulsCommitted (blueRealtimeScore arena')
           = FoulsCommitted (blueRealtimeScore arena)).
Proof.
  unfold RefereeDisplayWebsocketHandler_step. split.
  - intros ->. cbn. split; reflexivity.
  - intros Hcm. apply String.eqb_neq in Hcm. rewrite Hcm.
    destruct (messageType =? "addFoul")%string;
      [destruct (decodeAddFoul data); [split; reflexivity |] |].
    2: destruct (messageType =? "deleteFoul")%string;
      [destruct (decodeDeleteFoul data) |]; try (split; reflexivity).
    all: unfold case_addFoul, case_deleteFoul; split_if; split; reflexivity.
Qed.

Lemma refRun_stays_committed (ms : list RefereeMessage) (arena : Arena) :
  EntryEnabled arena = false -> EntryEnabled (refRun arena ms) = false.
Proof.
  revert arena. induction ms as [| m ms IH]; intros arena H; [exact H |].
  cbn [refereeRun fold_left]. apply IH. unfold refereeStep, EntryEnabled in *.
  destruct (refStep_FoulsCommitted (handledAt m) (refereeType m) (refereeData m) arena)
    as [Hcm Hother].
  destruct (String.eqb_spec (refereeType m) "commitMatch") as [Heq | Hne].
  - destruct (Hcm Heq) as [-> ->]. reflexivity.
  - destruct (Hother Hne) as [-> ->]. exact H.
Qed.

(** X17. The page of the referee display enables the entry of fouls until
    a commitMatch: a sequence of referee messages without one leaves both
    fouls-committed flags as they are, and after a commitMatch the entry is
    disabled whatever messages follow. *)
Theorem entry_enabled_until_commitMatch
    (before after : list RefereeMessage) (m : RefereeMessage) (arena : Arena) :
  (Forall (fun m0 => refereeType m0 <> "commitMatch") before ->
     FoulsCommitted (redRealtimeScore (refRun arena before))
     = FoulsCommitted (redRealtimeScore arena)
     /\ FoulsCommitted (blueRealtimeScore (refRun arena before))
        = FoulsCommitted (blueRealtimeScore arena)
     /\ EntryEnabled (refRun arena before) = EntryEnabled arena)
  /\ (refereeType m = "commitMatch" ->
        EntryEnabled (refRun arena (before ++ m :: after)) = false).
Proof.
  split.
  - intros Hall. revert arena.
    induction Hall as [| m0 ms Hm0 _ IH]; intros arena; [repeat split |].
    cbn [refereeRun fold_left].
    destruct (IH (refereeStep decodeAddFoul decodeDeleteFoul arena m0))
      as (Hr & Hb & He).
    destruct (proj2 (refStep_FoulsCommitted (handledAt m0) (refereeType m0)
                       (refereeData m0) arena) Hm0) as [Hr1 Hb1].
    unfold refereeRun, refereeStep, EntryEnabled in *.
    repeat split; congruence.
  - intros Hcm. unfold refereeRun. rewrite fold_left_app. cbn [fold_left].
    apply refRun_stays_committed.
    pose proof (refStep_FoulsCommitted (handledAt m) (refereeType m)
                  (refereeData m)
                  (fold_left (refereeStep decodeAddFoul decodeDeleteFoul)
                     before arena)) as H.
    cbv zeta in H. destruct H as [H _]. destruct (H Hcm) as [Hr Hb].
    unfold EntryEnabled, refereeStep in *. rewrite Hr, Hb. reflexivity.
Qed.

(** X18. addFoul is open after the fouls are committed: with the entry
    disabled, an addFoul that decodes still appends its foul, stamped with
    the match time, to the list its alliance selects, and the entry stays
    disabled. *)
Theorem addFoul_after_commit
    (matchTimeSec : float64) (data : Data) (args : AddFoulArgs) (arena : Arena) :
  EntryEnabled arena = false ->
  decodeAddFoul data = inr args ->
  let arena' := fst (refStep matchTimeSec "addFoul" data arena) in
  selectedFouls (add_Alliance args) arena'
  = (selectedFouls (add_Alliance args) arena
     ++ [mkFoul (add_TeamId args) (add_Rule args) (add_IsTechnical args)
           matchTimeSec])%list
  /\ EntryEnabled arena' = false.
Proof.
  intros Hentry Hdecode arena'. subst arena'.
  unfold RefereeDisplayWebsocketHandler_step. cbn [String.eqb Ascii.eqb Bool.eqb].
  rewrite Hdecode. cbn [fst]. unfold case_addFoul, selectedFouls.
  destruct (add_Alliance args =? "red")%string; split; try reflexivity;
    exact Hentry.
Qed.

(** X19. A foul that was just added is taken back by its deleteFoul: when
    the list its alliance selects holds no equal foul and the match time is
    not a NaN, addFoul followed by the deleteFoul of the same alliance, team,
    rule, flag and time gives back the arena as it was. *)
Theorem addFoul_then_deleteFoul
    (matchTimeSec time2 : float64) (data1 data2 : Data)
    (add : AddFoulArgs) (del : DeleteFoulArgs) (arena : Arena) :
  decodeAddFoul data1 = inr add ->
  decodeDeleteFoul data2 = inr del ->
  del = mkDeleteFoulArgs (add_Alliance add) (add_TeamId add) (add_Rule add)
          matchTimeSec (add_IsTechnical add) ->
  float64_eq matchTimeSec matchTimeSec = true ->
  noMatch (mkFoul (add_TeamId add) (add_Rule add) (add_IsTechnical add) matchTimeSec)
    (selectedFouls (add_Alliance add) arena) ->
  fst (refStep time2 "deleteFoul" data2
         (fst (refStep matchTimeSec "addFoul" data1 arena)))
  = arena.
Proof.
  intros Hadd Hdel -> Htime Hnone.
  unfold RefereeDisplayWebsocketHandler_step. cbn [String.eqb Ascii.eqb Bool.eqb].
  rewrite Hadd, Hdel. cbn [fst].
  unfold case_addFoul, case_deleteFoul, selectedFouls in *.
  cbn [del_Alliance del_TeamId del_Rule del_IsTechnical del_TimeInMatchSec].
  set (foul := mkFoul (add_TeamId add) (add_Rule add) (add_IsTechnical add)
                 matchTimeSec) in *.
  assert (Hself : Foul_eq foul foul = true).
  { unfold Foul_eq. cbn. rewrite Z.eqb_refl, String.eqb_refl, Bool.eqb_reflx, Htime.
    reflexivity. }
  destruct arena as [red blue].
  destruct (add_Alliance add =? "red")%string; cbn in *; unfold push;
    rewrite (removeFoul_first foul _ [] foul Hnone Hself), app_nil_r.
  - destruct red; reflexivity.
  - destruct blue; reflexivity.
Qed.

End RefereeFurther.

Lemma otherFouls_noMatch (deleteFoul : Foul) (fouls : list Foul) :
  noMatch deleteFoul fouls ->
  otherFouls deleteFoul fouls = fouls /\ countFoul deleteFoul fouls = O.
Proof.
  unfold otherFouls, countFoul.
  induction 1 as [| foul rest Hfoul _ [IH1 IH2]]; [split; reflexivity |].
  cbn. rewrite Hfoul. cbn. rewrite IH1. split; [reflexivity | exact IH2].
Qed.

(** X20. deleteFoul takes nothing but one matching foul: the fouls that do
    not equal the given one are all kept, in their order, and the number of
    those that equal it goes down by one (or stays at zero). *)
Theorem deleteFoul_keeps_other_fouls (deleteFoul : Foul) (fouls : list Foul) :
  otherFouls deleteFoul (removeFoul deleteFoul fouls) = otherFouls deleteFoul fouls
  /\ countFoul deleteFoul (removeFoul deleteFoul fouls)
     = Nat.pred (countFoul deleteFoul fouls).
Proof.
  destruct (match_or_noMatch deleteFoul fouls) as [Hnone | Hex].
  - rewrite (removeFoul_absent _ _ Hnone).
    destruct (otherFouls_noMatch _ _ Hnone) as [_ ->]. split; reflexivity.
  - destruct (first_match_split deleteFoul fouls Hex)
      as (before & x & after & -> & Hbefore & Hx).
    rewrite (removeFoul_first _ _ _ _ Hbefore Hx).
    destruct (otherFouls_noMatch _ _ Hbefore) as [Ho Hc].
    unfold otherFouls, countFoul in *.
    rewrite !filter_app, !length_app. cbn [filter]. rewrite Hx. cbn [negb List.length].
    rewrite Hc. split; [reflexivity | cbn; reflexivity].
Qed.

(** *** On the ledger with duplicates *)

Lemma entry_enabled_until_commitMatch_witness :
  EntryEnabled
    (refereeRun (decodeTo (addG3 "red")) (decodeTo (deleteG3 "blue"))
       arenaWithDuplicates
       ([mkRefereeMessage seconds12 "addFoul" DNil]
        ++ mkRefereeMessage seconds12 "commitMatch" DNil
           :: [mkRefereeMessage seconds12 "deleteFoul" DNil;
               mkRefereeMessage seconds12 "reset" DNil]))
  = false.
Proof.
  exact (proj2 (entry_enabled_until_commitMatch
                  (decodeTo (addG3 "red")) (decodeTo (deleteG3 "blue"))
                  [mkRefereeMessage seconds12 "addFoul" DNil]
                  [mkRefereeMessage seconds12 "deleteFoul" DNil;
                   mkRefereeMessage seconds12 "reset" DNil]
                  (mkRefereeMessage seconds12 "commitMatch" DNil)
                  arenaWithDuplicates)
           eq_refl).
Defined.

Lemma addFoul_after_commit_witness :
  selectedFouls "blue"
    (fst (RefereeDisplayWebsocketHandler_step (decodeTo (addG3 "blue")) decodeFails
            seconds12 "addFoul" DNil (case_commitFouls arenaWithDuplicates)))
  = [foulG12; foulG3; foulG12; foulG3; foulG3]
  /\ EntryEnabled
       (fst (RefereeDisplayWebsocketHandler_step (decodeTo (addG3 "blue"))
               decodeFails seconds12 "addFoul" DNil
               (case_commitFouls arenaWithDuplicates)))
     = false.
Proof.
  exact (addFoul_after_commit (decodeTo (addG3 "blue")) decodeFails seconds12 DNil
           (addG3 "blue") (case_commitFouls arenaWithDuplicates) eq_refl eq_refl).
Defined.

Lemma addFoul_then_deleteFoul_witness :
  fst (RefereeDisplayWebsocketHandler_step
         (decodeTo (addG3 "red")) (decodeTo (deleteG3 "red"))
         (S754_zero false) "deleteFoul" DNil
         (fst (RefereeDisplayWebsocketHandler_step
                 (decodeTo (addG3 "red")) (decodeTo (deleteG3 "red"))
                 seconds12 "addFoul" DNil arenaWithDuplicates)))
  = arenaWithDuplicates.
Proof.
  refine (addFoul_then_deleteFoul (decodeTo (addG3 "red")) (decodeTo (deleteG3 "red"))
            seconds12 (S754_zero false) DNil DNil (addG3 "red") (deleteG3 "red")
            arenaWithDuplicates eq_refl eq_refl eq_refl eq_refl _).
  repeat constructor.
Defined.

(** With a NaN as the match time the added foul equals no foul, itself
    included, and its deleteFoul removes nothing. *)
Example addFoul_then_deleteFoul_NaN :
  Fouls (redRealtimeScore
           (fst (RefereeDisplayWebsocketHandler_step
                   (decodeTo (addG3 "red"))
                   (decodeTo (mkDeleteFoulArgs "red" 254 "G3" S754_nan false))
                   seconds12 "deleteFoul" DNil
                   (fst (RefereeDisplayWebsocketHandler_step
                           (decodeTo (addG3 "red"))
                           (decodeTo (mkDeleteFoulArgs "red" 254 "G3" S754_nan false))
                           S754_nan "addFoul" DNil arenaWithDuplicates)))))
  = [foulG12; mkFoul 254 "G3" false S754_nan].
Proof. reflexivity. Qed.
